(** * mvpgpt: the streaming broadcast and history-synchronisation protocol

    A shallow embedding of [Services/mvpgpt/app/main.py]: the connection
    manager, the history parser, the generation task and the three
    endpoints, written in a small state-and-exception monad.  The state is
    the registry of live connections together with the trace of everything
    the process did to the outside world; the outside world (sockets, the
    history worker, the generation backend, the text validation of the
    backend's content type) is an [Environment] the definitions are
    parameterised by.

    Each operation is run to completion on its own: the interleaving of
    tasks at their [await] points, cancellation, and exceptions that are not
    subclasses of [Exception] are outside the model.  [print] calls are left
    out. *)

From Stdlib Require Import List String ZArith Bool Lia.
Import ListNotations.
Open Scope string_scope.
Local Set Warnings "-register-all".

(** ** JSON values, as Python sees them after [json.loads] *)

(** Floats are not modelled: a number is an integer. *)
Inductive json : Type :=
| JNull
| JBool (b : bool)
| JNum (n : Z)
| JStr (s : string)
| JList (l : list json)
| JDict (kv : list (string * json)).

(** A Python dict with string keys as an association list; the first binding
    of a key is the one in force. *)
Definition dict := list (string * json).

Fixpoint dict_get (key : string) (d : dict) : option json :=
  match d with
  | [] => None
  | (k, v) :: d' => if String.eqb k key then Some v else dict_get key d'
  end.

(** [isinstance(x, dict)] and [isinstance(x, list)]. *)
Definition is_dict (x : json) : bool :=
  match x with JDict _ => true | _ => false end.

Definition is_list (x : json) : bool :=
  match x with JList _ => true | _ => false end.

(** [type(x).__name__], used in the messages of the interpreter's errors. *)
Definition type_name (x : json) : string :=
  match x with
  | JNull => "NoneType"
  | JBool _ => "bool"
  | JNum _ => "int"
  | JStr _ => "str"
  | JList _ => "list"
  | JDict _ => "dict"
  end.

(** ** Exceptions and results *)

Inductive exn_class : Type :=
| JSONDecodeError
| AttributeError
| TypeError
| ValidationError
| WebSocketDisconnect
| OtherException (name : string).

(** An exception with [str(e)].  Every exception of the model is a subclass
    of [Exception]. *)
Record exn : Type := Exn { exn_cls : exn_class; exn_str : string }.

Inductive Result (A : Type) : Type :=
| Ok (a : A)
| Raise (e : exn).
Arguments Ok {A} a.
Arguments Raise {A} e.

Definition is_JSONDecodeError (e : exn) : bool :=
  match exn_cls e with JSONDecodeError => true | _ => false end.

Definition is_WebSocketDisconnect (e : exn) : bool :=
  match exn_cls e with WebSocketDisconnect => true | _ => false end.

(** [x.get(key, default)]: only a dict has the method. *)
Definition py_get (x : json) (key : string) (default : json) : Result json :=
  match x with
  | JDict d => Ok (match dict_get key d with Some v => v | None => default end)
  | _ => Raise (Exn AttributeError
                  ("'" ++ type_name x ++ "' object has no attribute 'get'"))
  end.

Fixpoint chars (s : string) : list json :=
  match s with
  | EmptyString => []
  | String c s' => JStr (String c EmptyString) :: chars s'
  end.

(** [for msg in x]: the values a [for] loop binds, or the [TypeError] of a
    value that is not iterable.  A list yields its elements, a dict its
    keys, a string its characters. *)
Definition py_iter (x : json) : Result (list json) :=
  match x with
  | JList l => Ok l
  | JDict d => Ok (map (fun kv => JStr (fst kv)) d)
  | JStr s => Ok (chars s)
  | _ => Raise (Exn TypeError ("'" ++ type_name x ++ "' object is not iterable"))
  end.

(** ** The outside world *)

(** A WebSocket object, by identity. *)
Definition WebSocket := nat.

Inductive Request : Type :=
| Get
| Post (role : string) (content : json)
| Delete.

(** What the process did, in the order it did it.  [Broadcast m] marks a
    call of [manager.broadcast(m)]; [Sent]/[SendFailed] are the [send_text]
    calls that returned / raised (the frame is recorded as the message that
    [json.dumps] encoded); [Http] is a request issued to the history worker;
    [Received] is a text frame taken off a socket. *)
Inductive Effect : Type :=
| Broadcast (m : json)
| Sent (ws : WebSocket) (m : json)
| SendFailed (ws : WebSocket) (m : json)
| Http (r : Request)
| Received (ws : WebSocket) (s : string).

(** The body of an HTTP response, as far as the code looks at it:
    [resp.text.strip()] is empty ([Blank]); it is not, but [resp.json()]
    raises ([Invalid]); or [resp.json()] returns a value. *)
Inductive Body : Type :=
| Blank
| Invalid
| Json (j : json).

Record Response : Type := { status_code : Z; body : Body }.

Inductive HttpOutcome : Type :=
| HttpRaise (e : exn)
| HttpResp (r : Response).

(** [resp.json()]. *)
Definition resp_json (resp : Response) : Result json :=
  match body resp with
  | Json j => Ok j
  | _ => Raise (Exn JSONDecodeError "Expecting value")
  end.

(** [resp.text.strip()], as a truth value. *)
Definition text_nonblank (resp : Response) : bool :=
  match body resp with Blank => false | _ => true end.

(** A streamed chunk of the backend: [chunk.text] is a string or [None]. *)
Record Chunk : Type := { text : option string }.

(** What iterating the backend's response stream does: yield a chunk, stop,
    or raise.  A call of [generate_content_stream] that raises at once is
    [Fail e]. *)
Inductive Stream : Type :=
| Yield (c : Chunk) (rest : Stream)
| Done
| Fail (e : exn).

(** [types.Content(role=..., parts=[types.Part.from_text(text=...)])]. *)
Record Part : Type := { part_text : json }.
Record Content : Type := { role : string; parts : list Part }.

(** The environment: what the sockets, the history worker and the backend
    answer.  The answers may depend on everything that happened so far.
    [valid_text] is the library's validation of the argument of
    [Part.from_text]; [inbound ws] are the text frames the client of [ws]
    sends before it disconnects. *)
Record Environment : Type := {
  send_result : list Effect -> WebSocket -> json -> option exn;
  http : list Effect -> Request -> HttpOutcome;
  generate_content_stream : list Content -> Stream;
  valid_text : json -> bool;
  inbound : WebSocket -> list string
}.

(** ** The process state and its monad *)

Record World : Type := {
  active_connections : list WebSocket;
  trace : list Effect
}.

Definition M (A : Type) : Type := World -> Result A * World.

Definition ret {A} (a : A) : M A := fun w => (Ok a, w).

Definition bind {A B} (m : M A) (k : A -> M B) : M B :=
  fun w => match m w with
           | (Ok a, w') => k a w'
           | (Raise e, w') => (Raise e, w')
           end.

Definition raise {A} (e : exn) : M A := fun w => (Raise e, w).

Definition lift {A} (r : Result A) : M A := fun w => (r, w).

(** [try: m  except <classes>: handler(e)]; what happened before the
    exception stays done. *)
Definition try_except {A} (m : M A) (catches : exn -> bool)
    (handler : exn -> M A) : M A :=
  fun w => match m w with
           | (Ok a, w') => (Ok a, w')
           | (Raise e, w') =>
               if catches e then handler e w' else (Raise e, w')
           end.

(** [except Exception] and the bare [except:]. *)
Definition Exception (e : exn) : bool := true.

Declare Scope py_scope.
Delimit Scope py_scope with py.
Notation "x <- m ;; k" := (bind m (fun x => k))
  (at level 61, m at next level, right associativity) : py_scope.
Notation "m ;; k" := (bind m (fun _ => k))
  (at level 61, right associativity) : py_scope.
Open Scope py_scope.

Definition record (e : Effect) : M unit :=
  fun w => (Ok tt, {| active_connections := active_connections w;
                      trace := trace w ++ [e] |}).

Fixpoint for_each {A} (l : list A) (body : A -> M unit) : M unit :=
  match l with
  | [] => ret tt
  | x :: l' => body x ;; for_each l' body
  end.

(** ** Projections of a trace *)

Fixpoint broadcasts (tr : list Effect) : list json :=
  match tr with
  | [] => []
  | Broadcast m :: tr' => m :: broadcasts tr'
  | _ :: tr' => broadcasts tr'
  end.

Fixpoint requests (tr : list Effect) : list Request :=
  match tr with
  | [] => []
  | Http r :: tr' => r :: requests tr'
  | _ :: tr' => requests tr'
  end.

(** What a viewer got, in order. *)
Fixpoint received (c : WebSocket) (tr : list Effect) : list json :=
  match tr with
  | [] => []
  | Sent ws m :: tr' =>
      if Nat.eqb ws c then m :: received c tr' else received c tr'
  | _ :: tr' => received c tr'
  end.

(** The trace without the individual socket sends: broadcast calls, worker
    requests and inbound frames, in order. *)
Fixpoint calls (tr : list Effect) : list Effect :=
  match tr with
  | [] => []
  | Sent _ _ :: tr' => calls tr'
  | SendFailed _ _ :: tr' => calls tr'
  | e :: tr' => e :: calls tr'
  end.

(** The sockets a send was attempted on, in order. *)
Fixpoint attempted (tr : list Effect) : list WebSocket :=
  match tr with
  | [] => []
  | Sent ws _ :: tr' => ws :: attempted tr'
  | SendFailed ws _ :: tr' => ws :: attempted tr'
  | _ :: tr' => attempted tr'
  end.

(** ** The wire messages *)

Definition stream_msg (chunk : string) : json :=
  JDict [("role", JStr "assistant"); ("chunk", JStr chunk); ("type", JStr "stream")].

Definition stream_end_msg : json := JDict [("type", JStr "stream_end")].

Definition user_msg (content : json) : json :=
  JDict [("role", JStr "user"); ("content", content)].

Definition clear_msg : json := JDict [("type", JStr "clear")].

Definition full_msg (role content : json) : json :=
  JDict [("role", role); ("content", content); ("type", JStr "full")].

Section Program.

Variable E : Environment.

(** ** Connection Manager *)

(** [websocket.send_text(json.dumps(m))]. *)
Definition send_text (ws : WebSocket) (m : json) : M unit :=
  fun w => match send_result E (trace w) ws m with
           | None => (Ok tt, {| active_connections := active_connections w;
                                trace := trace w ++ [Sent ws m] |})
           | Some e => (Raise e, {| active_connections := active_connections w;
                                    trace := trace w ++ [SendFailed ws m] |})
           end.

(** [ConnectionManager.connect]; [websocket.accept()] is taken to return. *)
Definition connect (websocket : WebSocket) : M unit :=
  fun w => (Ok tt, {| active_connections := active_connections w ++ [websocket];
                      trace := trace w |}).

(** [list.remove]: the first occurrence. *)
Fixpoint list_remove (x : WebSocket) (l : list WebSocket) : list WebSocket :=
  match l with
  | [] => []
  | y :: l' => if Nat.eqb y x then l' else y :: list_remove x l'
  end.

(** [ConnectionManager.disconnect]. *)
Definition disconnect (websocket : WebSocket) : M unit :=
  fun w => if existsb (Nat.eqb websocket) (active_connections w)
           then (Ok tt, {| active_connections :=
                             list_remove websocket (active_connections w);
                           trace := trace w |})
           else (Ok tt, w).

(** [ConnectionManager.broadcast]: iterate a copy of the list; a send that
    raises is passed over. *)
Definition broadcast (message : json) : M unit :=
  record (Broadcast message) ;;
  fun w =>
    for_each (active_connections w)
      (fun connection =>
         try_except (send_text connection message) Exception (fun _ => ret tt))
      w.

(** ** Universal history parser *)

(** Handles both [[msg, msg]] and [{'history': [msg, msg]}]. *)
Definition parse_worker_history (data : json) : json :=
  match data with
  | JList _ => data
  | JDict d => match dict_get "history" d with Some v => v | None => JList [] end
  | _ => JList []
  end.

(** ** Helpers *)

(** An [http_client] call: the request goes out, the worker's answer (or the
    transport's exception) comes back. *)
Definition http_request (r : Request) : M Response :=
  fun w =>
    let w' := {| active_connections := active_connections w;
                 trace := trace w ++ [Http r] |} in
    match http E (trace w) r with
    | HttpResp resp => (Ok resp, w')
    | HttpRaise e => (Raise e, w')
    end.

(** [save_message]: one POST; an exception is printed, not raised. *)
Definition save_message (role : string) (content : json) : M unit :=
  try_except (http_request (Post role content) ;; ret tt)
    Exception (fun _ => ret tt).

(** Step 1 of [generate_ai_response]: fetch the history. *)
Definition fetch_history : M json :=
  try_except
    (resp <- http_request Get ;;
     if (status_code resp =? 200)%Z then
       try_except
         (json_data <- lift (resp_json resp) ;;
          ret (parse_worker_history json_data))
         is_JSONDecodeError (fun _ => ret (JList []))
     else ret (JList []))
    Exception (fun _ => ret (JList [])).

(** [types.Part.from_text(text=v)]. *)
Definition from_text (v : json) : Result Part :=
  if valid_text E v then Ok {| part_text := v |}
  else Raise (Exn ValidationError "1 validation error for Part").

(** The body of the loop of step 2, for one record. *)
Definition format_record (msg : json) : Result Content :=
  match py_get msg "role" JNull with
  | Raise e => Raise e
  | Ok r =>
      let role :=
        match r with
        | JStr s => if String.eqb s "assistant" || String.eqb s "model"
                    then "model" else "user"
        | _ => "user"
        end in
      match py_get msg "content" (JStr "") with
      | Raise e => Raise e
      | Ok c =>
          match from_text c with
          | Raise e => Raise e
          | Ok p => Ok {| role := role; parts := [p] |}
          end
      end
  end.

Fixpoint format_records (msgs : list json) : Result (list Content) :=
  match msgs with
  | [] => Ok []
  | msg :: rest =>
      match format_record msg with
      | Raise e => Raise e
      | Ok c => match format_records rest with
                | Raise e => Raise e
                | Ok cs => Ok (c :: cs)
                end
      end
  end.

(** Step 2 of [generate_ai_response]: format for Gemini, then append the
    current message. *)
Definition format_for_gemini (raw_history user_content : json)
    : Result (list Content) :=
  match py_iter raw_history with
  | Raise e => Raise e
  | Ok msgs =>
      match format_records msgs with
      | Raise e => Raise e
      | Ok gemini_contents =>
          match from_text user_content with
          | Raise e => Raise e
          | Ok p => Ok (gemini_contents ++ [{| role := "user"; parts := [p] |}])%list
          end
      end
  end.

(** The truth value of [chunk.text], with the text when it is true. *)
Definition truthy_text (chunk : Chunk) : option string :=
  match text chunk with
  | Some EmptyString => None
  | Some s => Some s
  | None => None
  end.

(** The [for chunk in response_stream] loop of step 3; the result is
    [full_response]. *)
Fixpoint stream_loop (response_stream : Stream) (full_response : string)
    : M string :=
  match response_stream with
  | Done => ret full_response
  | Fail e => raise e
  | Yield chunk rest =>
      match truthy_text chunk with
      | Some t =>
          let full_response := full_response ++ t in
          broadcast (stream_msg t) ;;
          stream_loop rest full_response
      | None => stream_loop rest full_response
      end
  end.

Definition generate_ai_response (user_content : json) : M unit :=
  raw_history <- fetch_history ;;
  gemini_contents <- lift (format_for_gemini raw_history user_content) ;;
  try_except
    (full_response <- stream_loop (generate_content_stream E gemini_contents) "" ;;
     save_message "assistant" (JStr full_response) ;;
     broadcast stream_end_msg)
    Exception
    (fun e =>
       let err_msg := "Error generating response: " ++ exn_str e in
       broadcast (stream_msg (" [" ++ err_msg ++ "]")) ;;
       broadcast stream_end_msg).

(** ** Endpoints *)

(** [POST /chat].  The handler returns its response and the background
    tasks it queued; the framework runs them, in order, after the response
    ([serve_chat]). *)
Definition chat_endpoint (payload : dict) : M (json * list (M unit)) :=
  let user_content :=
    match dict_get "content" payload with Some v => v | None => JStr "" end in
  let background_tasks := [save_message "user" user_content] in
  broadcast (user_msg user_content) ;;
  let background_tasks :=
    (background_tasks ++ [generate_ai_response user_content])%list in
  ret (JDict [("status", JStr "ok")], background_tasks).

Definition serve_chat (payload : dict) : M json :=
  rt <- chat_endpoint payload ;;
  for_each (snd rt) (fun task => task) ;;
  ret (fst rt).

(** [DELETE /reset]. *)
Definition reset_history : M json :=
  try_except
    (http_request Delete ;;
     broadcast clear_msg)
    Exception (fun _ => ret tt) ;;
  ret (JDict [("status", JStr "reset")]).

(** The replay loop of [websocket_endpoint]. *)
Definition replay (websocket : WebSocket) (history : list json) : M unit :=
  for_each history
    (fun msg =>
       match msg with
       | JDict d =>
           send_text websocket
             (full_msg (match dict_get "role" d with Some v => v | None => JNull end)
                       (match dict_get "content" d with Some v => v | None => JNull end))
       | _ => ret tt
       end).

(** [while True: await websocket.receive_text()] for a client that sends
    the text frames [frames] and then disconnects: each frame is taken and
    dropped, and the call after the last one raises [WebSocketDisconnect].
    What [receive_text] does on a socket on which a send has failed (the
    framework may answer with another exception, which the endpoint does
    not catch) is outside the model: the loop is only read for sockets
    whose sends succeeded or were not attempted. *)
Fixpoint receive_loop (websocket : WebSocket) (frames : list string) : M unit :=
  match frames with
  | [] => raise (Exn WebSocketDisconnect "")
  | s :: rest => record (Received websocket s) ;; receive_loop websocket rest
  end.

(** [WS /ws]. *)
Definition websocket_endpoint (websocket : WebSocket) : M unit :=
  connect websocket ;;
  try_except
    (resp <- http_request Get ;;
     if (status_code resp =? 200)%Z && text_nonblank resp then
       json_data <- lift (resp_json resp) ;;
       let history := parse_worker_history json_data in
       msgs <- lift (py_iter history) ;;
       replay websocket msgs
     else ret tt)
    Exception (fun _ => ret tt) ;;
  try_except (receive_loop websocket (inbound E websocket))
    is_WebSocketDisconnect (fun _ => disconnect websocket).

End Program.

(** ** Reading a run *)

(** The state after [new] more effects, the registry as it was. *)
Definition grow (w : World) (new : list Effect) : World :=
  {| active_connections := active_connections w; trace := (trace w ++ new)%list |}.

(** A socket that takes every frame, whatever happened before. *)
Definition accepts (E : Environment) (c : WebSocket) : Prop :=
  forall tr m, send_result E tr c m = None.

(** One [send_text] inside [broadcast], as the trace shows it. *)
Definition attempt (E : Environment) (tr : list Effect) (c : WebSocket)
    (m : json) : Effect :=
  match send_result E tr c m with
  | None => Sent c m
  | Some _ => SendFailed c m
  end.

(** The sends of one [broadcast] over the copied list. *)
Fixpoint deliver (E : Environment) (tr : list Effect) (conns : list WebSocket)
    (m : json) : list Effect :=
  match conns with
  | [] => []
  | c :: cs => attempt E tr c m :: deliver E (tr ++ [attempt E tr c m]) cs m
  end.

(** The text fragments a stream produces before it stops or raises, and how
    it ends. *)
Fixpoint fragments (s : Stream) : list string :=
  match s with
  | Yield c rest =>
      match truthy_text c with
      | Some t => t :: fragments rest
      | None => fragments rest
      end
  | _ => []
  end.

Fixpoint failure (s : Stream) : option exn :=
  match s with
  | Yield _ rest => failure rest
  | Done => None
  | Fail e => Some e
  end.

(** The [raw_history] step 1 ends with, by the worker's answer. *)
Definition fetched (o : HttpOutcome) : json :=
  match o with
  | HttpRaise _ => JList []
  | HttpResp resp =>
      if (status_code resp =? 200)%Z then
        match body resp with
        | Json j => parse_worker_history j
        | _ => JList []
        end
      else JList []
  end.

(** A dict's field, [None] when it is missing. *)
Definition field (key : string) (d : dict) : json :=
  match dict_get key d with Some v => v | None => JNull end.

(** The text of the error fragment for an exception [e]. *)
Definition error_chunk (e : exn) : string :=
  " [" ++ ("Error generating response: " ++ exn_str e) ++ "]".

Definition is_user_post (r : Request) : bool :=
  match r with
  | Post role _ => String.eqb role "user"
  | _ => false
  end.

(** ** The history worker *)

(** Modelled from the spec: the history store is an external service, not
    part of the Python source.  Section 6 gives its protocol: GET returns
    the session's records, POST appends one record [{role, content}], DELETE
    clears the session.  [store_after rs store] is the store after the
    requests [rs]. *)
Fixpoint store_after (rs : list Request) (store : list json) : list json :=
  match rs with
  | [] => store
  | Get :: rs' => store_after rs' store
  | Post role content :: rs' =>
      store_after rs' (store ++ [JDict [("role", JStr role); ("content", content)]])
  | Delete :: rs' => store_after rs' []
  end.

(** Modelled from the spec: a worker that follows the protocol of section 6
    and is reliable.  It answers every request with status 200, so its
    contents are determined by the requests issued so far; GET returns them
    as a bare array. *)
Definition worker_http (tr : list Effect) (r : Request) : HttpOutcome :=
  match r with
  | Get => HttpResp {| status_code := 200;
                       body := Json (JList (store_after (requests tr) [])) |}
  | _ => HttpResp {| status_code := 200;
                     body := Json (JDict [("status", JStr "ok")]) |}
  end.

(** ** Sample environments, for concrete runs *)

(** Sockets listed in [dead] refuse every frame; the worker answers
    [worker]; the backend streams [s]; every text is valid; no client sends
    anything. *)
Definition sample_env (dead : list WebSocket)
    (worker : list Effect -> Request -> HttpOutcome) (s : Stream)
    : Environment :=
  {| send_result := fun _ ws _ =>
       if existsb (Nat.eqb ws) dead
       then Some (Exn (OtherException "RuntimeError") "socket closed")
       else None;
     http := worker;
     generate_content_stream := fun _ => s;
     valid_text := fun _ => true;
     inbound := fun _ => [] |}.

(** A worker that always answers 200 with the JSON value [j]. *)
Definition answers (j : json) (tr : list Effect) (r : Request) : HttpOutcome :=
  HttpResp {| status_code := 200; body := Json j |}.

(** A worker that cannot be reached. *)
Definition unreachable (tr : list Effect) (r : Request) : HttpOutcome :=
  HttpRaise (Exn (OtherException "ConnectError") "connection refused").

Definition hello_stream : Stream :=
  Yield {| text := Some "Hel" |}
    (Yield {| text := None |}
       (Yield {| text := Some "" |}
          (Yield {| text := Some "lo" |} Done))).

Definition world0 (conns : list WebSocket) : World :=
  {| active_connections := conns; trace := [] |}.

(** The concatenation of a list of fragments. *)
Definition join (fs : list string) : string := fold_right append "" fs.

(** Over a registry without repetition, every registered socket that
    accepts got exactly the broadcast messages of [new], in order. *)
Definition faithful (E : Environment) (conns : list WebSocket)
    (new : list Effect) : Prop :=
  NoDup conns ->
  forall c, In c conns -> accepts E c -> received c new = broadcasts new.

(** The frame the replay sends for a stored record. *)
Definition replayed (d : dict) : json :=
  full_msg (field "role" d) (field "content" d).

(** The stored role of a record is one of the two the backend context
    maps to a model turn. *)
Definition model_role (d : dict) : Prop :=
  dict_get "role" d = Some (JStr "assistant")
  \/ dict_get "role" d = Some (JStr "model").

(** The content of a record, the empty text when the field is missing. *)
Definition content_or_empty (d : dict) : json :=
  match dict_get "content" d with Some v => v | None => JStr "" end.

(** [turn] is the backend turn of the stored record [d]: its one part holds
    the record's content, defaulted to the empty text; its role is [model]
    exactly for a stored role [assistant] or [model], and [user] for every
    other role and for a missing one. *)
Definition turn_of (d : dict) (turn : Content) : Prop :=
  parts turn = [{| part_text := content_or_empty d |}]
  /\ (role turn = "model" <-> model_role d)
  /\ (role turn = "user" <-> ~ model_role d).

(** ** The client page

    The script of the page served at [/]: the [onmessage] handler of the
    live channel, over the chat box and the stream [div] in progress. *)

(** A child of [#chat-box]: its class and its text. *)
Record Div : Type := { className : string; textContent : string }.

(** The page: the children of the chat box in document order, and
    [currentStreamDiv], a reference to one of them (by position) or
    [null]. *)
Record Page : Type := {
  chatBox : list Div;
  currentStreamDiv : option nat
}.

(** The two string conversions of the browser the script relies on, for
    values that need not be strings: what assigning a value to
    [textContent] leaves as the text, and what [+] appends to a string.
    [None] is [undefined]. *)
Record Browser : Type := {
  dom_text : option json -> string;
  js_string : option json -> string
}.

(** Both conversions leave a string as it is. *)
Definition keeps_strings (B : Browser) : Prop :=
  forall s, dom_text B (Some (JStr s)) = s /\ js_string B (Some (JStr s)) = s.

(** [data.key] for a parsed frame other than [null]: the property of an
    object, [undefined] when it is missing or the value is not an
    object. *)
Definition prop (key : string) (data : json) : option json :=
  match data with
  | JDict d => dict_get key d
  | _ => None
  end.

(** [v === 's']. *)
Definition strict_eq (v : option json) (s : string) : bool :=
  match v with
  | Some (JStr t) => String.eqb t s
  | _ => false
  end.

(** [addMessage(role, text)]. *)
Definition addMessage (B : Browser) (role : string) (text : option json)
    (page : Page) : Page :=
  {| chatBox := (chatBox page
                 ++ [{| className := "msg " ++ role;
                        textContent := dom_text B text |}])%list;
     currentStreamDiv := currentStreamDiv page |}.

(** [div.textContent += s] for the child at position [i]. *)
Fixpoint append_text (i : nat) (s : string) (divs : list Div) : list Div :=
  match divs, i with
  | [], _ => []
  | d :: rest, O =>
      {| className := className d; textContent := textContent d ++ s |} :: rest
  | d :: rest, S i' => d :: append_text i' s rest
  end.

(** The [assistant]/[stream] branch: open a [div] when none is in
    progress, then append the chunk to the one in progress. *)
Definition stream_chunk (B : Browser) (chunk : option json) (page : Page) : Page :=
  let page' :=
    match currentStreamDiv page with
    | None =>
        {| chatBox := (chatBox page
                       ++ [{| className := "msg assistant"; textContent := "" |}])%list;
           currentStreamDiv := Some (List.length (chatBox page)) |}
    | Some _ => page
    end in
  match currentStreamDiv page' with
  | Some i => {| chatBox := append_text i (js_string B chunk) (chatBox page');
                 currentStreamDiv := Some i |}
  | None => page'
  end.

(** [ws.onmessage], on the parsed frame.  For the frame [null] the first
    property access throws and the page is left as it was. *)
Definition onmessage (B : Browser) (data : json) (page : Page) : Page :=
  match data with
  | JNull => page
  | _ =>
      let page1 :=
        if strict_eq (prop "type" data) "clear" then
          {| chatBox := []; currentStreamDiv := None |}
        else if strict_eq (prop "role" data) "user" then
          addMessage B "user" (prop "content" data) page
        else if strict_eq (prop "role" data) "assistant" then
          if strict_eq (prop "type" data) "stream" then
            stream_chunk B (prop "chunk" data) page
          else if strict_eq (prop "type" data) "full" then
            addMessage B "assistant" (prop "content" data) page
          else page
        else page in
      if strict_eq (prop "type" data) "stream_end" then
        {| chatBox := chatBox page1; currentStreamDiv := None |}
      else page1
  end.

(** The page after the frames of a list have arrived, in order. *)
Definition render (B : Browser) (frames : list json) (page : Page) : Page :=
  fold_left (fun p data => onmessage B data p) frames page.

(** The stream [div] in progress, if any, is a child of the chat box. *)
Definition page_ok (page : Page) : Prop :=
  match currentStreamDiv page with
  | Some i => i < List.length (chatBox page)
  | None => True
  end.

(** A browser for concrete runs: strings as they are, every other value as
    the empty text. *)
Definition sample_browser : Browser :=
  {| dom_text := fun v => match v with Some (JStr s) => s | _ => "" end;
     js_string := fun v => match v with Some (JStr s) => s | _ => "" end |}.

(** The environment [E] with another history worker. *)
Definition with_http (E : Environment)
    (worker : list Effect -> Request -> HttpOutcome) : Environment :=
  {| send_result := send_result E;
     http := worker;
     generate_content_stream := generate_content_stream E;
     valid_text := valid_text E;
     inbound := inbound E |}.

(** The [div] the page shows for a stored record with a string content. *)
Definition shown (role content : string) : Div :=
  {| className := "msg " ++ role; textContent := content |}.

(** The dict records of a history, in order. *)
Fixpoint dicts_of (history : list json) : list dict :=
  match history with
  | [] => []
  | JDict d :: rest => d :: dicts_of rest
  | _ :: rest => dicts_of rest
  end.

(** The records the history sync of the viewer endpoint replays, by the
    worker's answer: the dict records among the values its loop iterates,
    none when the sync fails before the loop. *)
Definition synced (o : HttpOutcome) : list dict :=
  match o with
  | HttpRaise _ => []
  | HttpResp resp =>
      if (status_code resp =? 200)%Z && text_nonblank resp then
        match resp_json resp with
        | Ok j =>
            match py_iter (parse_worker_history j) with
            | Ok msgs => dicts_of msgs
            | Raise _ => []
            end
        | Raise _ => []
        end
      else []
  end.

(** * Lemmas *)

(** The monad laws, pointwise. *)
Lemma bind_ret_l {A B} (a : A) (k : A -> M B) (w : World) :
  bind (ret a) k w = k a w.
Proof. reflexivity. Qed.

Lemma bind_ret_r {A} (m : M A) (w : World) : bind m ret w = m w.
Proof. unfold bind, ret. destruct (m w) as [[a|e] w']; reflexivity. Qed.

Lemma bind_assoc {A B C} (m : M A) (k : A -> M B) (h : B -> M C) (w : World) :
  bind (bind m k) h w = bind m (fun a => bind (k a) h) w.
Proof. unfold bind. destruct (m w) as [[a|e] w']; reflexivity. Qed.

(** A handler for [Exception] leaves nothing to propagate when it does not
    raise itself. *)
Lemma try_except_ok {A} (m : M A) (a : A) (w : World) :
  exists r, fst (try_except m Exception (fun _ => ret a) w) = Ok r.
Proof.
  unfold try_except, Exception, ret. destruct (m w) as [[r|e] w']; eexists; reflexivity.
Qed.

Lemma broadcasts_app (a b : list Effect) :
  broadcasts (a ++ b) = (broadcasts a ++ broadcasts b)%list.
Proof.
  induction a as [|e a IH]; simpl; [reflexivity|].
  destruct e; simpl; rewrite IH; reflexivity.
Qed.

Lemma requests_app (a b : list Effect) :
  requests (a ++ b) = (requests a ++ requests b)%list.
Proof.
  induction a as [|e a IH]; simpl; [reflexivity|].
  destruct e; simpl; rewrite IH; reflexivity.
Qed.

Lemma calls_app (a b : list Effect) :
  calls (a ++ b) = (calls a ++ calls b)%list.
Proof.
  induction a as [|e a IH]; simpl; [reflexivity|].
  destruct e; simpl; rewrite IH; reflexivity.
Qed.

Lemma attempted_app (a b : list Effect) :
  attempted (a ++ b) = (attempted a ++ attempted b)%list.
Proof.
  induction a as [|e a IH]; simpl; [reflexivity|].
  destruct e; simpl; rewrite IH; reflexivity.
Qed.

Lemma received_app (c : WebSocket) (a b : list Effect) :
  received c (a ++ b) = (received c a ++ received c b)%list.
Proof.
  induction a as [|e a IH]; simpl; [reflexivity|].
  destruct e; simpl; try assumption.
  destruct (Nat.eqb ws c); simpl; rewrite IH; reflexivity.
Qed.

(** Broadcast calls and worker requests are among the [calls]. *)
Lemma broadcasts_calls (tr : list Effect) : broadcasts (calls tr) = broadcasts tr.
Proof.
  induction tr as [|e tr IH]; simpl; [reflexivity|].
  destruct e; simpl; rewrite ?IH; reflexivity.
Qed.

Lemma requests_calls (tr : list Effect) : requests (calls tr) = requests tr.
Proof.
  induction tr as [|e tr IH]; simpl; [reflexivity|].
  destruct e; simpl; rewrite ?IH; reflexivity.
Qed.

Lemma grow_grow (w : World) (a b : list Effect) :
  grow (grow w a) b = grow w (a ++ b).
Proof. unfold grow; simpl. rewrite <- app_assoc. reflexivity. Qed.

Lemma grow_nil (w : World) : grow w [] = w.
Proof. destruct w; unfold grow; simpl. rewrite app_nil_r. reflexivity. Qed.

Lemma grow_connections (w : World) (a : list Effect) :
  active_connections (grow w a) = active_connections w.
Proof. reflexivity. Qed.

Lemma grow_trace (w : World) (a : list Effect) :
  trace (grow w a) = (trace w ++ a)%list.
Proof. reflexivity. Qed.

Section Broadcasting.

Variable E : Environment.

Lemma deliver_calls (conns : list WebSocket) (m : json) :
  forall tr, calls (deliver E tr conns m) = [].
Proof.
  induction conns as [|c cs IH]; intros tr; simpl; [reflexivity|].
  unfold attempt at 1. destruct (send_result E tr c m); simpl; apply IH.
Qed.

Lemma deliver_attempted (conns : list WebSocket) (m : json) :
  forall tr, attempted (deliver E tr conns m) = conns.
Proof.
  induction conns as [|c cs IH]; intros tr; simpl; [reflexivity|].
  unfold attempt at 1. destruct (send_result E tr c m); simpl; rewrite IH; reflexivity.
Qed.

(** Nothing reaches a socket that is not registered. *)
Lemma deliver_received_absent (c : WebSocket) (conns : list WebSocket) (m : json) :
  ~ In c conns -> forall tr, received c (deliver E tr conns m) = [].
Proof.
  induction conns as [|c' cs IH]; intros Hc tr; simpl; [reflexivity|].
  assert (Hne : c' <> c) by (intros ->; apply Hc; left; reflexivity).
  assert (Hcs : ~ In c cs) by (intros H; apply Hc; right; exact H).
  apply Nat.eqb_neq in Hne.
  unfold attempt at 1. destruct (send_result E tr c' m); simpl;
    rewrite ?Hne; apply IH; exact Hcs.
Qed.

(** Whatever a socket gets from a broadcast of [m] is [m]. *)
Lemma deliver_received_only (c : WebSocket) (conns : list WebSocket) (m : json) :
  forall tr, Forall (eq m) (received c (deliver E tr conns m)).
Proof.
  induction conns as [|c' cs IH]; intros tr; simpl; [constructor|].
  unfold attempt at 1. destruct (send_result E tr c' m); simpl; [apply IH|].
  destruct (Nat.eqb c' c); [constructor; [reflexivity|]|]; apply IH.
Qed.

(** A registered socket that accepts gets the message once, whatever the
    other sockets do. *)
Lemma deliver_received (c : WebSocket) (conns : list WebSocket) (m : json) :
  accepts E c -> NoDup conns -> In c conns ->
  forall tr, received c (deliver E tr conns m) = [m].
Proof.
  intros Hacc. induction conns as [|c' cs IH]; intros Hnd Hin tr; [destruct Hin|].
  inversion Hnd as [|? ? Hnotin Hnd']; subst. simpl.
  destruct (Nat.eq_dec c' c) as [->|Hne].
  - unfold attempt at 1. rewrite Hacc. simpl. rewrite Nat.eqb_refl.
    rewrite deliver_received_absent by exact Hnotin. reflexivity.
  - destruct Hin as [Heq|Hin]; [contradiction|].
    apply Nat.eqb_neq in Hne.
    unfold attempt at 1. destruct (send_result E tr c' m); simpl;
      rewrite ?Hne; apply IH; assumption.
Qed.

(** The loop of [broadcast] never raises and leaves the registry alone. *)
Lemma broadcast_loop (m : json) (conns reg : list WebSocket) :
  forall tr,
    for_each conns
      (fun connection =>
         try_except (send_text E connection m) Exception (fun _ => ret tt))
      {| active_connections := reg; trace := tr |}
    = (Ok tt, {| active_connections := reg;
                 trace := (tr ++ deliver E tr conns m)%list |}).
Proof.
  induction conns as [|c cs IH]; intros tr; simpl.
  - unfold ret. rewrite app_nil_r. reflexivity.
  - unfold bind, try_except, send_text, attempt; simpl.
    destruct (send_result E tr c m); simpl; unfold ret; rewrite IH;
      rewrite <- app_assoc; reflexivity.
Qed.

Lemma broadcast_run (m : json) (w : World) :
  broadcast E m w
  = (Ok tt, grow w (Broadcast m ::
                    deliver E (trace w ++ [Broadcast m]) (active_connections w) m)).
Proof.
  unfold broadcast, bind, record; simpl.
  rewrite broadcast_loop. unfold grow. rewrite <- app_assoc. reflexivity.
Qed.

End Broadcasting.

Lemma string_app_assoc (a b c : string) : (a ++ b) ++ c = a ++ (b ++ c).
Proof. induction a as [|ch a IH]; simpl; [reflexivity|]. rewrite IH. reflexivity. Qed.

Lemma string_app_nil_r (a : string) : a ++ "" = a.
Proof. induction a as [|ch a IH]; simpl; [reflexivity|]. rewrite IH. reflexivity. Qed.

Section Generation.

Variable E : Environment.

Lemma faithful_nil (conns : list WebSocket) : faithful E conns [].
Proof. intros _ c _ _. reflexivity. Qed.

Lemma faithful_app (conns : list WebSocket) (a b : list Effect) :
  faithful E conns a -> faithful E conns b -> faithful E conns (a ++ b).
Proof.
  intros Ha Hb Hnd c Hin Hacc.
  rewrite received_app, broadcasts_app, Ha, Hb by assumption. reflexivity.
Qed.

Lemma faithful_http (conns : list WebSocket) (r : Request) :
  faithful E conns [Http r].
Proof. intros _ c _ _. reflexivity. Qed.

Lemma faithful_broadcast (conns : list WebSocket) (m : json) (tr : list Effect) :
  faithful E conns (Broadcast m :: deliver E tr conns m).
Proof.
  intros Hnd c Hin Hacc. simpl.
  rewrite deliver_received by assumption.
  rewrite <- broadcasts_calls, deliver_calls. reflexivity.
Qed.

Lemma http_request_run (r : Request) (w : World) :
  http_request E r w
  = (match http E (trace w) r with
     | HttpResp resp => Ok resp
     | HttpRaise e => Raise e
     end, grow w [Http r]).
Proof. unfold http_request, grow. destruct (http E (trace w) r); reflexivity. Qed.

(** [save_message] never raises: it issues its POST and returns. *)
Lemma save_message_run (role : string) (content : json) (w : World) :
  save_message E role content w = (Ok tt, grow w [Http (Post role content)]).
Proof.
  unfold save_message, try_except, bind. rewrite http_request_run.
  destruct (http E (trace w) (Post role content)); reflexivity.
Qed.

(** The history fetch never raises: it issues its GET and ends with
    [fetched] of the answer. *)
Lemma fetch_history_run (w : World) :
  fetch_history E w = (Ok (fetched (http E (trace w) Get)), grow w [Http Get]).
Proof.
  unfold fetch_history, try_except at 1, bind at 1. rewrite http_request_run.
  destruct (http E (trace w) Get) as [e|resp]; simpl; [reflexivity|].
  destruct (status_code resp =? 200)%Z; [|reflexivity].
  unfold try_except, bind, lift, resp_json, ret.
  destruct (body resp); reflexivity.
Qed.

(** The streaming loop: it ends as the stream ends, with every fragment
    appended to the accumulator and broadcast, one call each, in order. *)
Lemma stream_loop_run (s : Stream) :
  forall (acc : string) (w : World),
  exists new,
    stream_loop E s acc w
    = (match failure s with
       | None => Ok (acc ++ join (fragments s))
       | Some e => Raise e
       end, grow w new)
    /\ calls new = map (fun t => Broadcast (stream_msg t)) (fragments s)
    /\ faithful E (active_connections w) new.
Proof.
  induction s as [c rest IH| |e]; intros acc w.
  - simpl. destruct (truthy_text c) as [t|].
    + unfold bind. rewrite broadcast_run.
      set (b := Broadcast (stream_msg t) :: deliver E _ _ _).
      destruct (IH (acc ++ t) (grow w b)) as (new & Hrun & Hcalls & Hf).
      exists (b ++ new)%list. rewrite Hrun, grow_grow. split; [|split].
      * destruct (failure rest); [reflexivity|].
        simpl. rewrite string_app_assoc. reflexivity.
      * rewrite calls_app, Hcalls. subst b. simpl. rewrite deliver_calls. reflexivity.
      * apply faithful_app; [apply faithful_broadcast | exact Hf].
    + apply IH.
  - exists []. simpl. unfold ret. rewrite grow_nil, string_app_nil_r.
    split; [reflexivity|]. split; [reflexivity | apply faithful_nil].
  - exists []. simpl. unfold raise. rewrite grow_nil.
    split; [reflexivity|]. split; [reflexivity | apply faithful_nil].
Qed.

(** The whole task.  When the context cannot be assembled the exception of
    step 2 leaves the task after the GET; otherwise the task returns, and
    what it did after the GET is the fragments, then either the POST of the
    assembled text and [stream_end], or the error fragment and
    [stream_end]. *)
Lemma generate_run (user_content : json) (w : World) :
  match format_for_gemini E (fetched (http E (trace w) Get)) user_content with
  | Raise e =>
      generate_ai_response E user_content w = (Raise e, grow w [Http Get])
  | Ok gemini_contents =>
      let s := generate_content_stream E gemini_contents in
      exists new,
        generate_ai_response E user_content w = (Ok tt, grow w (Http Get :: new))
        /\ faithful E (active_connections w) new
        /\ calls new
           = (map (fun t => Broadcast (stream_msg t)) (fragments s)
              ++ match failure s with
                 | None => [Http (Post "assistant" (JStr (join (fragments s))));
                            Broadcast stream_end_msg]
                 | Some e => [Broadcast (stream_msg (error_chunk e));
                              Broadcast stream_end_msg]
                 end)%list
  end.
Proof.
  unfold generate_ai_response.
  change (bind (fetch_history E) ?k w)
    with (match fetch_history E w with
          | (Ok a, w') => k a w'
          | (Raise e, w') => (Raise e, w')
          end).
  rewrite fetch_history_run.
  unfold bind at 1, lift.
  destruct (format_for_gemini E _ user_content) as [ctx|e]; [|reflexivity].
  set (s := generate_content_stream E ctx). unfold try_except, bind.
  destruct (stream_loop_run s "" (grow w [Http Get])) as (new & Hrun & Hcalls & Hf).
  rewrite Hrun. destruct (failure s) as [e|].
  - simpl Exception. cbv iota. rewrite !broadcast_run, !grow_grow.
    eexists. split; [reflexivity|]. split.
    + apply faithful_app; [exact Hf|]. simpl.
      apply (faithful_app _ (_ :: _) (_ :: _)); apply faithful_broadcast.
    + rewrite calls_app, Hcalls. simpl. rewrite calls_app. simpl.
      rewrite !deliver_calls. reflexivity.
  - rewrite save_message_run, broadcast_run, !grow_grow.
    eexists. split; [reflexivity|]. split.
    + apply faithful_app; [exact Hf|].
      apply (faithful_app _ [_] (_ :: _)); [apply faithful_http | apply faithful_broadcast].
    + rewrite calls_app, Hcalls. simpl. rewrite deliver_calls. reflexivity.
Qed.

End Generation.

Lemma requests_fragments (fs : list string) :
  requests (map (fun t => Broadcast (stream_msg t)) fs) = [].
Proof. induction fs as [|f fs IH]; simpl; [reflexivity | exact IH]. Qed.

Lemma broadcasts_fragments (fs : list string) :
  broadcasts (map (fun t => Broadcast (stream_msg t)) fs) = map stream_msg fs.
Proof. induction fs as [|f fs IH]; simpl; [reflexivity | rewrite IH; reflexivity]. Qed.

(** Every fragment is a non-empty text. *)
Lemma fragments_nonempty (s : Stream) : Forall (fun t => t <> "") (fragments s).
Proof.
  induction s as [c rest IH| |e]; simpl; try constructor.
  unfold truthy_text. destruct (text c) as [[|a t]|]; try exact IH.
  constructor; [discriminate | exact IH].
Qed.

Section Endpoints.

Variable E : Environment.

(** A registered socket that accepts is sent the broadcast message,
    whatever the sockets before it did. *)
Lemma deliver_sent (c : WebSocket) (conns : list WebSocket) (m : json) :
  accepts E c -> In c conns -> forall tr, In (Sent c m) (deliver E tr conns m).
Proof.
  intros Hacc. induction conns as [|c' cs IH]; intros Hin tr; [destruct Hin|].
  simpl. destruct Hin as [->|Hin].
  - left. unfold attempt. rewrite Hacc. reflexivity.
  - right. apply IH. exact Hin.
Qed.

(** What the task asks of the worker: its GET, and at most the POST of the
    assistant's message; never a user message. *)
Lemma generate_requests (user_content : json) (w : World) :
  exists new,
    snd (generate_ai_response E user_content w) = grow w new
    /\ filter is_user_post (requests new) = []
    /\ Forall (fun m => m = stream_end_msg \/ exists t, m = stream_msg t /\ t <> "")
              (broadcasts new).
Proof.
  pose proof (generate_run E user_content w) as H.
  destruct (format_for_gemini E _ user_content) as [ctx|e].
  - destruct H as (new & Hrun & _ & Hcalls).
    exists (Http Get :: new). rewrite Hrun. split; [reflexivity|].
    simpl. rewrite <- (requests_calls new), <- (broadcasts_calls new), Hcalls.
    rewrite requests_app, broadcasts_app, requests_fragments, broadcasts_fragments.
    split.
    + destruct (failure _); reflexivity.
    + apply Forall_app. split.
      * apply Forall_map.
        eapply Forall_impl; [|apply fragments_nonempty].
        intros t Ht. right. exists t. split; [reflexivity | exact Ht].
      * destruct (failure _) as [e|]; simpl.
        -- constructor; [|constructor; [left; reflexivity | constructor]].
           right. exists (error_chunk e). split; [reflexivity | discriminate].
        -- constructor; [left; reflexivity | constructor].
  - exists [Http Get]. rewrite H. split; [reflexivity|]. split; [reflexivity | constructor].
Qed.

(** The replay loop passes over a record that is not a dict. *)
Lemma replay_filter (ws : WebSocket) (history : list json) :
  forall w, replay E ws history w = replay E ws (filter is_dict history) w.
Proof.
  unfold replay. induction history as [|msg rest IH]; intros w; [reflexivity|].
  destruct msg; simpl; unfold bind in *; simpl; try apply IH.
  unfold send_text. destruct (send_result E (trace w) ws _); [reflexivity | apply IH].
Qed.

(** Replaying stored dicts to a socket that accepts: one frame each, in
    order, and nothing else. *)
Lemma replay_run (ws : WebSocket) (ds : list dict) :
  accepts E ws ->
  forall w, replay E ws (map JDict ds) w
            = (Ok tt, grow w (map (fun d => Sent ws (replayed d)) ds)).
Proof.
  intros Hacc. unfold replay.
  induction ds as [|d ds IH]; intros w; simpl.
  - unfold ret. rewrite grow_nil. reflexivity.
  - unfold bind, send_text. rewrite Hacc.
    change {| active_connections := active_connections w;
              trace := (trace w ++ [Sent ws (full_msg
                  match dict_get "role" d with Some v => v | None => JNull end
                  match dict_get "content" d with Some v => v | None => JNull end)])%list |}
      with (grow w [Sent ws (replayed d)]).
    unfold bind in IH. rewrite IH, grow_grow. reflexivity.
Qed.

(** The receive loop takes every inbound frame, does nothing with it, and
    ends with the disconnect. *)
Lemma receive_loop_run (ws : WebSocket) (frames : list string) :
  forall w, receive_loop ws frames w
            = (Raise (Exn WebSocketDisconnect ""), grow w (map (Received ws) frames)).
Proof.
  induction frames as [|s rest IH]; intros w; simpl.
  - unfold raise. rewrite grow_nil. reflexivity.
  - unfold bind, record.
    change {| active_connections := active_connections w;
              trace := (trace w ++ [Received ws s])%list |}
      with (grow w [Received ws s]).
    rewrite IH, grow_grow. reflexivity.
Qed.

Lemma list_remove_last (ws : WebSocket) (l : list WebSocket) :
  ~ In ws l -> list_remove ws (l ++ [ws]) = l.
Proof.
  induction l as [|x l IH]; intros Hn; simpl.
  - rewrite Nat.eqb_refl. reflexivity.
  - assert (Hx : x <> ws) by (intros ->; apply Hn; left; reflexivity).
    apply Nat.eqb_neq in Hx. rewrite Hx, IH; [reflexivity|].
    intros H. apply Hn. right. exact H.
Qed.

Lemma registered_last (ws : WebSocket) (l : list WebSocket) :
  existsb (Nat.eqb ws) (l ++ [ws]) = true.
Proof.
  rewrite existsb_app. simpl. rewrite Nat.eqb_refl, orb_true_r. reflexivity.
Qed.

(** The registry never lists a socket twice: [connect] of a socket that is
    not registered and [disconnect] keep it so. *)
Lemma connect_NoDup (ws : WebSocket) (w : World) :
  NoDup (active_connections w) -> ~ In ws (active_connections w) ->
  NoDup (active_connections (snd (connect ws w))).
Proof.
  intros Hnd Hn. simpl. apply NoDup_app; [exact Hnd | repeat constructor; intros [] |].
  intros x Hx [<-|[]]. exact (Hn Hx).
Qed.

Lemma list_remove_incl (ws x : WebSocket) (l : list WebSocket) :
  In x (list_remove ws l) -> In x l.
Proof.
  induction l as [|y l IH]; simpl; [tauto|].
  destruct (Nat.eqb y ws); simpl; [tauto|].
  intros [H|H]; [left; exact H | right; exact (IH H)].
Qed.

Lemma disconnect_NoDup (ws : WebSocket) (w : World) :
  NoDup (active_connections w) ->
  NoDup (active_connections (snd (disconnect ws w))).
Proof.
  intros Hnd. unfold disconnect.
  destruct (existsb _ _); simpl; [|exact Hnd].
  induction Hnd as [|y l Hy Hnd IH]; simpl; [constructor|].
  destruct (Nat.eqb y ws); [exact Hnd|].
  constructor; [|exact IH]. intros H. apply Hy. exact (list_remove_incl _ _ _ H).
Qed.

End Endpoints.

Lemma failed_attempted (c : WebSocket) (m : json) (tr : list Effect) :
  In (SendFailed c m) tr -> In c (attempted tr).
Proof.
  induction tr as [|e tr IH]; simpl; [tauto|].
  intros [->|H]; [left; reflexivity|].
  destruct e; simpl; auto.
Qed.

(** * The broadcast registry *)

(** C2, as amended: the failing connection is not pruned.  For every
    broadcast call, a send failure on one connection does not abort delivery
    to the others: the call returns, a send is attempted on every registered
    connection in registry order, and every registered connection whose
    socket accepts is sent the message.  The call leaves the registry as it
    was, so a connection whose send failed is still registered afterwards. *)
Theorem broadcast_survives_send_failure
    (E : Environment) (message : json) (w : World) :
  exists sends,
    broadcast E message w = (Ok tt, grow w (Broadcast message :: sends))
    /\ attempted sends = active_connections w
    /\ calls sends = []
    /\ (forall c, In c (active_connections w) -> accepts E c ->
                  In (Sent c message) sends)
    /\ (forall c, In (SendFailed c message) sends ->
                  In c (active_connections (snd (broadcast E message w)))).
Proof.
  exists (deliver E (trace w ++ [Broadcast message]) (active_connections w) message).
  rewrite broadcast_run. split; [reflexivity|].
  split; [apply deliver_attempted|]. split; [apply deliver_calls|]. split.
  - intros c Hin Hacc. apply deliver_sent; assumption.
  - intros c Hf. simpl.
    rewrite <- (deliver_attempted E (active_connections w) message
                  (trace w ++ [Broadcast message])).
    exact (failed_attempted _ _ _ Hf).
Qed.

(** C2 as stated is false: over the registry [1; 2] with socket 1 refusing
    the frame, socket 2 is served, and socket 1 is still registered after
    the call. *)
Lemma broadcast_keeps_failing_connection :
  snd (broadcast (sample_env [1] unreachable Done) clear_msg (world0 [1; 2]))
  = {| active_connections := [1; 2];
       trace := [Broadcast clear_msg; SendFailed 1 clear_msg; Sent 2 clear_msg] |}.
Proof. reflexivity. Qed.

Lemma broadcast_survives_send_failure_witness :
  In (Sent 2 clear_msg)
     (trace (snd (broadcast (sample_env [1] unreachable Done) clear_msg
                    (world0 [1; 2])))).
Proof.
  destruct (broadcast_survives_send_failure
              (sample_env [1] unreachable Done) clear_msg (world0 [1; 2]))
    as (sends & Hrun & _ & _ & Hsent & _).
  rewrite Hrun. simpl. right. apply Hsent.
  - simpl. right. left. reflexivity.
  - intros tr m. reflexivity.
Defined.

(** * The generation task *)

(** When the context is assembled the task always closes the stream: after
    the fragments comes [stream_end] on success, the error fragment and then
    [stream_end] on a failure of the backend, and in that case nothing is
    posted to the worker. *)
Lemma generation_closes_stream
    (E : Environment) (user_content : json) (w : World)
    (gemini_contents : list Content) :
  format_for_gemini E (fetched (http E (trace w) Get)) user_content
  = Ok gemini_contents ->
  let s := generate_content_stream E gemini_contents in
  exists new,
    generate_ai_response E user_content w = (Ok tt, grow w (Http Get :: new))
    /\ broadcasts new
       = (map stream_msg (fragments s)
          ++ match failure s with
             | None => [stream_end_msg]
             | Some e => [stream_msg (error_chunk e); stream_end_msg]
             end)%list
    /\ requests new
       = match failure s with
         | None => [Post "assistant" (JStr (join (fragments s)))]
         | Some _ => []
         end.
Proof.
  intros Hfmt s. pose proof (generate_run E user_content w) as H.
  rewrite Hfmt in H. destruct H as (new & Hrun & _ & Hcalls).
  exists new. split; [exact Hrun|].
  rewrite <- (broadcasts_calls new), <- (requests_calls new), Hcalls.
  rewrite broadcasts_app, requests_app, broadcasts_fragments, requests_fragments.
  fold s. destruct (failure s); split; reflexivity.
Qed.

(** C1, at a failing input: the worker answers 200 with the body [[1]].  The
    record is not a dict, step 2 raises [AttributeError] outside every
    [try], and the task ends having broadcast nothing: no error fragment and
    no [stream_end]. *)
Theorem generation_aborts_on_non_dict_record :
  generate_ai_response
    (sample_env [] (answers (JList [JNum 1])) hello_stream)
    (JStr "hi") (world0 [1; 2])
  = (Raise (Exn AttributeError "'int' object has no attribute 'get'"),
     {| active_connections := [1; 2]; trace := [Http Get] |}).
Proof. reflexivity. Qed.

(** The history fetch yields the empty list when the request raises, when
    the status is not 200, when the body is empty or is not JSON, and when
    the JSON value is neither a list nor a dict with a [history] field. *)
Lemma fetched_empty (o : HttpOutcome) :
  (forall e, o = HttpRaise e -> fetched o = JList [])
  /\ (forall resp, o = HttpResp resp -> status_code resp <> 200%Z ->
                   fetched o = JList [])
  /\ (forall resp, o = HttpResp resp -> body resp = Blank \/ body resp = Invalid ->
                   fetched o = JList [])
  /\ (forall resp j, o = HttpResp resp -> body resp = Json j ->
                     is_list j = false ->
                     (forall d, j = JDict d -> dict_get "history" d = None) ->
                     fetched o = JList []).
Proof.
  repeat split.
  - intros e ->. reflexivity.
  - intros resp -> Hs. simpl. apply Z.eqb_neq in Hs. rewrite Hs. reflexivity.
  - intros resp -> [Hb|Hb]; simpl; rewrite Hb; destruct (_ =? _)%Z; reflexivity.
  - intros resp j -> Hb Hl Hd. simpl. rewrite Hb.
    destruct (_ =? _)%Z; [|reflexivity].
    destruct j; try reflexivity; [discriminate|].
    simpl. rewrite (Hd kv eq_refl). reflexivity.
Qed.

(** C3, at a failing input: the worker answers 200 with the body
    [{"history": 5}].  The fetch does not raise, but what it yields is the
    number 5, not an empty sequence; the loop of step 2 then raises
    [TypeError] and the task ends without a broadcast. *)
Theorem fetch_yields_non_list_history_field :
  let E := sample_env [] (answers (JDict [("history", JNum 5)])) hello_stream in
  fetch_history E (world0 [1])
  = (Ok (JNum 5), {| active_connections := [1]; trace := [Http Get] |})
  /\ parse_worker_history (JDict [("history", JNum 5)]) = JNum 5
  /\ generate_ai_response E (JStr "hi") (world0 [1])
     = (Raise (Exn TypeError "'int' object is not iterable"),
        {| active_connections := [1]; trace := [Http Get] |}).
Proof. repeat split. Qed.

(** C4.  For every successful generation (the context is assembled and the
    backend's stream ends without an exception) producing the fragments
    [fs]: the task returns; after its GET it broadcasts each fragment, alone,
    in order, then posts the concatenation of the fragments as one assistant
    message, then broadcasts one [stream_end]; and every registered viewer
    whose socket accepts receives exactly the fragment events in order and
    then the one [stream_end], whatever the other registered sockets are and
    do. *)
Theorem successful_generation_streams_fragments
    (E : Environment) (user_content : json) (w : World)
    (gemini_contents : list Content) :
  format_for_gemini E (fetched (http E (trace w) Get)) user_content
  = Ok gemini_contents ->
  failure (generate_content_stream E gemini_contents) = None ->
  let fs := fragments (generate_content_stream E gemini_contents) in
  exists new,
    generate_ai_response E user_content w = (Ok tt, grow w (Http Get :: new))
    /\ calls new
       = (map (fun t => Broadcast (stream_msg t)) fs
          ++ [Http (Post "assistant" (JStr (join fs))); Broadcast stream_end_msg])%list
    /\ (NoDup (active_connections w) ->
        forall c, In c (active_connections w) -> accepts E c ->
                  received c new = (map stream_msg fs ++ [stream_end_msg])%list).
Proof.
  intros Hfmt Hdone fs. pose proof (generate_run E user_content w) as H.
  rewrite Hfmt in H. destruct H as (new & Hrun & Hf & Hcalls).
  rewrite Hdone in Hcalls. fold fs in Hcalls.
  exists new. split; [exact Hrun|]. split; [exact Hcalls|].
  intros Hnd c Hin Hacc. rewrite (Hf Hnd c Hin Hacc).
  rewrite <- (broadcasts_calls new), Hcalls, broadcasts_app, broadcasts_fragments.
  reflexivity.
Qed.

Lemma successful_generation_streams_fragments_witness :
  let E := sample_env [2] (answers (JList [])) hello_stream in
  exists new,
    generate_ai_response E (JStr "hi") (world0 [1; 2; 3])
    = (Ok tt, grow (world0 [1; 2; 3]) (Http Get :: new))
    /\ calls new
       = [Broadcast (stream_msg "Hel"); Broadcast (stream_msg "lo");
          Http (Post "assistant" (JStr "Hello")); Broadcast stream_end_msg]
    /\ received 3 new = [stream_msg "Hel"; stream_msg "lo"; stream_end_msg].
Proof.
  intros E.
  destruct (successful_generation_streams_fragments E (JStr "hi") (world0 [1; 2; 3])
              [{| role := "user"; parts := [{| part_text := JStr "hi" |}] |}]
              eq_refl eq_refl)
    as (new & Hrun & Hcalls & Hrecv).
  exists new. split; [exact Hrun|]. split; [exact Hcalls|].
  apply Hrecv.
  - repeat constructor; simpl; intuition discriminate.
  - simpl. right. right. left. reflexivity.
  - intros tr m. reflexivity.
Defined.

(** C9.  A chunk whose text is absent or empty goes by without a change to
    the accumulator and without a broadcast, and every assistant-fragment
    event a generation broadcasts carries a non-empty chunk text. *)
Theorem empty_chunks_are_skipped
    (E : Environment) (user_content : json) (w : World)
    (rest : Stream) (full_response : string) :
  stream_loop E (Yield {| text := None |} rest) full_response w
  = stream_loop E rest full_response w
  /\ stream_loop E (Yield {| text := Some "" |} rest) full_response w
     = stream_loop E rest full_response w
  /\ exists new,
       snd (generate_ai_response E user_content w) = grow w new
       /\ forall t, In (stream_msg t) (broadcasts new) -> t <> "".
Proof.
  split; [reflexivity|]. split; [reflexivity|].
  destruct (generate_requests E user_content w) as (new & Hrun & _ & Hall).
  exists new. split; [exact Hrun|].
  intros t Hin. rewrite Forall_forall in Hall.
  destruct (Hall _ Hin) as [Heq|(t' & Heq & Hne)]; [discriminate|].
  injection Heq as ->. exact Hne.
Qed.

(** * The session gateway *)

Lemma store_after_app (a b : list Request) :
  forall store, store_after (a ++ b) store = store_after b (store_after a store).
Proof.
  induction a as [|r a IH]; intros store; simpl; [reflexivity|].
  destruct r; apply IH.
Qed.

Lemma received_replayed (c ws : WebSocket) (ds : list dict) :
  received c (map (fun d => Sent ws (replayed d)) ds)
  = if Nat.eqb ws c then map replayed ds else [].
Proof.
  induction ds as [|d ds IH]; simpl; [destruct (Nat.eqb ws c); reflexivity|].
  rewrite IH. destruct (Nat.eqb ws c); reflexivity.
Qed.

Lemma received_inbound (c ws : WebSocket) (frames : list string) :
  received c (map (Received ws) frames) = [].
Proof. induction frames as [|s rest IH]; simpl; [reflexivity | exact IH]. Qed.

Lemma broadcasts_replayed (ws : WebSocket) (ds : list dict) :
  broadcasts (map (fun d => Sent ws (replayed d)) ds) = [].
Proof. induction ds as [|d ds IH]; simpl; [reflexivity | exact IH]. Qed.

Lemma broadcasts_inbound (ws : WebSocket) (frames : list string) :
  broadcasts (map (Received ws) frames) = [].
Proof. induction frames as [|s rest IH]; simpl; [reflexivity | exact IH]. Qed.



Lemma reset_history_run (E : Environment) (w : World) :
  reset_history E w
  = (Ok (JDict [("status", JStr "reset")]),
     match http E (trace w) Delete with
     | HttpResp _ =>
         grow w (Http Delete :: Broadcast clear_msg ::
                 deliver E ((trace w ++ [Http Delete]) ++ [Broadcast clear_msg])
                   (active_connections w) clear_msg)
     | HttpRaise _ => grow w [Http Delete]
     end).
Proof.
  unfold reset_history, bind, try_except. rewrite http_request_run.
  destruct (http E (trace w) Delete) as [e|resp]; cbv iota beta; [reflexivity|].
  rewrite broadcast_run, grow_grow. reflexivity.
Qed.

(** C6, as amended: the clear event depends on the delete request.  A reset
    issues one DELETE to the worker and returns its acknowledgment in every
    case.  When the request is answered, exactly one clear event is
    broadcast, a send is attempted on every registered connection, and every
    registered viewer whose socket accepts receives it; with the worker of
    the protocol the store is then empty, and a fetch that follows yields
    the empty history.  When the request raises, nothing is broadcast. *)
Theorem reset_clears_and_notifies (E : Environment) (w : World) :
  match http E (trace w) Delete with
  | HttpResp _ =>
      exists sends,
        reset_history E w
        = (Ok (JDict [("status", JStr "reset")]),
           grow w (Http Delete :: Broadcast clear_msg :: sends))
        /\ calls sends = []
        /\ attempted sends = active_connections w
        /\ (NoDup (active_connections w) ->
            forall c, In c (active_connections w) -> accepts E c ->
                      received c sends = [clear_msg])
        /\ (http E = worker_http ->
            store_after (requests (trace (snd (reset_history E w)))) [] = []
            /\ fst (fetch_history E (snd (reset_history E w))) = Ok (JList []))
  | HttpRaise _ =>
      reset_history E w
      = (Ok (JDict [("status", JStr "reset")]), grow w [Http Delete])
  end.
Proof.
  rewrite reset_history_run.
  destruct (http E (trace w) Delete) as [e|resp] eqn:Hdel; [reflexivity|].
  set (sends := deliver E _ _ _).
  exists sends. split; [reflexivity|]. split; [apply deliver_calls|].
  split; [apply deliver_attempted|]. split.
  - intros Hnd c Hin Hacc. apply deliver_received; assumption.
  - intros Hw.
    assert (Hstore : store_after
              (requests (trace w ++ Http Delete :: Broadcast clear_msg :: sends)) []
            = []).
    { rewrite requests_app, store_after_app. simpl.
      rewrite <- (requests_calls sends). unfold sends. rewrite deliver_calls.
      reflexivity. }
    split; [exact Hstore|].
    rewrite fetch_history_run. unfold fst, snd. rewrite grow_trace, Hw.
    unfold worker_http, fetched. cbv beta iota. rewrite Hstore. reflexivity.
Qed.

(** C6 as stated is false: when the worker cannot be reached the reset
    returns its acknowledgment without broadcasting a clear event. *)
Lemma reset_without_clear_when_unreachable :
  reset_history (sample_env [] unreachable Done) (world0 [1; 2])
  = (Ok (JDict [("status", JStr "reset")]),
     {| active_connections := [1; 2]; trace := [Http Delete] |}).
Proof. reflexivity. Qed.

Lemma reset_clears_and_notifies_witness :
  let E := sample_env [2] worker_http Done in
  let w := {| active_connections := [1; 2];
              trace := [Http (Post "user" (JStr "hi"))] |} in
  fst (fetch_history E w)
  = Ok (JList [JDict [("role", JStr "user"); ("content", JStr "hi")]])
  /\ fst (fetch_history E (snd (reset_history E w))) = Ok (JList [])
  /\ received 1 (trace (snd (reset_history E w))) = [clear_msg].
Proof.
  intros E w. split; [reflexivity|].
  pose proof (reset_clears_and_notifies E w) as H.
  change (http E (trace w) Delete)
    with (HttpResp {| status_code := 200;
                      body := Json (JDict [("status", JStr "ok")]) |}) in H.
  destruct H as (sends & Hrun & _ & _ & Hrecv & Hstore).
  split; [exact (proj2 (Hstore eq_refl))|].
  rewrite Hrun. simpl. apply Hrecv.
  - repeat constructor; simpl; intuition discriminate.
  - left. reflexivity.
  - intros tr m. reflexivity.
Defined.

(** The endpoint of a viewer that was not registered, when the worker
    answers 200 with stored dicts and the viewer's socket accepts: the GET,
    one full frame per record to that socket, the inbound frames, and the
    registry as it was before the connection. *)
Lemma websocket_endpoint_run
    (E : Environment) (ws : WebSocket) (w : World)
    (resp : Response) (j : json) (ds : list dict) :
  ~ In ws (active_connections w) ->
  http E (trace w) Get = HttpResp resp ->
  status_code resp = 200%Z ->
  body resp = Json j ->
  parse_worker_history j = JList (map JDict ds) ->
  accepts E ws ->
  websocket_endpoint E ws w
  = (Ok tt, grow w (Http Get :: map (fun d => Sent ws (replayed d)) ds
                    ++ map (Received ws) (inbound E ws))).
Proof.
  intros Hnew Hget Hstatus Hbody Hparse Hacc.
  unfold websocket_endpoint, bind, try_except, connect.
  rewrite http_request_run. cbn [trace]. rewrite Hget. cbv beta iota.
  unfold text_nonblank, lift, resp_json. rewrite Hstatus, Hbody, Hparse.
  cbn [Z.eqb Pos.eqb andb py_iter].
  rewrite (replay_run E ws ds Hacc). cbv beta iota.
  rewrite receive_loop_run. cbv beta iota.
  cbn [is_WebSocketDisconnect exn_cls].
  unfold disconnect. cbn [active_connections grow].
  rewrite registered_last, list_remove_last by exact Hnew.
  unfold grow. cbn [trace active_connections].
  rewrite <- !app_assoc. reflexivity.
Qed.

(** C7.  A new viewer connects while the worker answers with the [k] stored
    records [ds] and the viewer's socket accepts: the viewer receives the
    [k] full-type events of the records, in history order, and nothing
    else; no other socket receives anything and nothing is broadcast; the
    viewer's inbound frames are taken one by one with no other effect; and
    after the disconnect the connection is no longer registered. *)
Theorem new_viewer_gets_history_alone
    (E : Environment) (ws : WebSocket) (w : World)
    (resp : Response) (j : json) (ds : list dict) :
  ~ In ws (active_connections w) ->
  http E (trace w) Get = HttpResp resp ->
  status_code resp = 200%Z ->
  body resp = Json j ->
  parse_worker_history j = JList (map JDict ds) ->
  accepts E ws ->
  let new := (Http Get :: map (fun d => Sent ws (replayed d)) ds
              ++ map (Received ws) (inbound E ws))%list in
  websocket_endpoint E ws w = (Ok tt, grow w new)
  /\ received ws new = map replayed ds
  /\ List.length (received ws new) = List.length ds
  /\ (forall c, c <> ws -> received c new = [])
  /\ broadcasts new = []
  /\ ~ In ws (active_connections (snd (websocket_endpoint E ws w))).
Proof.
  intros Hnew Hget Hstatus Hbody Hparse Hacc new.
  pose proof (websocket_endpoint_run E ws w resp j ds
                Hnew Hget Hstatus Hbody Hparse Hacc) as Hrun.
  fold new in Hrun.
  assert (Hmine : received ws new = map replayed ds).
  { unfold new. cbn [received]. rewrite received_app, received_replayed,
      received_inbound, Nat.eqb_refl, app_nil_r. reflexivity. }
  split; [exact Hrun|]. split; [exact Hmine|]. split.
  { rewrite Hmine. apply length_map. }
  split; [|split].
  - intros c Hc. unfold new. cbn [received].
    rewrite received_app, received_replayed, received_inbound.
    apply not_eq_sym in Hc. apply Nat.eqb_neq in Hc. rewrite Hc. reflexivity.
  - unfold new. cbn [broadcasts].
    rewrite broadcasts_app, broadcasts_replayed, broadcasts_inbound. reflexivity.
  - rewrite Hrun. exact Hnew.
Qed.

Lemma new_viewer_gets_history_alone_witness :
  let E := sample_env []
             (answers (JDict [("history",
                JList [JDict [("role", JStr "user"); ("content", JStr "a")];
                       JDict [("role", JStr "assistant"); ("content", JStr "b")]])]))
             Done in
  let w' := snd (websocket_endpoint E 9 (world0 [1; 2])) in
  received 9 (trace w')
  = [full_msg (JStr "user") (JStr "a"); full_msg (JStr "assistant") (JStr "b")]
  /\ received 1 (trace w') = []
  /\ active_connections w' = [1; 2].
Proof.
  intros E.
  destruct (new_viewer_gets_history_alone E 9 (world0 [1; 2])
              {| status_code := 200;
                 body := Json (JDict [("history",
                   JList [JDict [("role", JStr "user"); ("content", JStr "a")];
                          JDict [("role", JStr "assistant"); ("content", JStr "b")]])]) |}
              (JDict [("history",
                   JList [JDict [("role", JStr "user"); ("content", JStr "a")];
                          JDict [("role", JStr "assistant"); ("content", JStr "b")]])])
              [[("role", JStr "user"); ("content", JStr "a")];
               [("role", JStr "assistant"); ("content", JStr "b")]])
    as (Hrun & _).
  - simpl. intuition discriminate.
  - reflexivity.
  - reflexivity.
  - reflexivity.
  - reflexivity.
  - intros tr m. reflexivity.
  - rewrite Hrun. repeat split.
Defined.

(** The role step 2 gives a record. *)
Lemma format_record_dict (E : Environment) (d : dict) :
  valid_text E (content_or_empty d) = true ->
  exists turn, format_record E (JDict d) = Ok turn /\ turn_of d turn.
Proof.
  intros Hv. unfold format_record, py_get, from_text.
  fold (content_or_empty d). rewrite Hv.
  eexists. split; [reflexivity|]. unfold turn_of, model_role. cbn [parts role].
  split; [reflexivity|].
  destruct (dict_get "role" d) as [[| | |s| |]|];
    try (split; split; [discriminate | intros [H|H]; discriminate
                        | intros _ [H|H]; discriminate | reflexivity]).
  destruct (String.eqb_spec s "assistant") as [->|Ha].
  - simpl. split; split; try discriminate; auto.
    intros H. exfalso. apply H. left. reflexivity.
  - destruct (String.eqb_spec s "model") as [->|Hm].
    + simpl. split; split; try discriminate; auto.
      intros H. exfalso. apply H. right. reflexivity.
    + simpl. split; split; try discriminate; auto.
      * intros [H|H]; injection H as ->; contradiction.
      * intros _ [H|H]; injection H as ->; contradiction.
Qed.

Lemma format_records_dicts (E : Environment) (ds : list dict) :
  Forall (fun d => valid_text E (content_or_empty d) = true) ds ->
  exists turns, format_records E (map JDict ds) = Ok turns /\ Forall2 turn_of ds turns.
Proof.
  induction 1 as [|d ds Hd _ (turns & Hrec & Hall)]; simpl.
  - exists []. split; [reflexivity | constructor].
  - destruct (format_record_dict E d Hd) as (turn & Hturn & Hof).
    rewrite Hturn, Hrec. exists (turn :: turns).
    split; [reflexivity | constructor; assumption].
Qed.

(** C8, as amended: the replay does not coerce.  For stored records [ds]
    whose texts the backend's content type accepts, the context is
    assembled: one turn per record, in order, whose text is the record's
    content, the empty text when the field is missing, and whose role is
    [model] exactly when the stored role is [assistant] or [model] and
    [user] for every other role and for a missing one; and the submitted
    [user_content] is the last turn, a [user] turn.  A record replayed to a
    connecting viewer is sent with its stored role and content as they are,
    [None] for a missing field. *)
Theorem context_roles_and_defaults
    (E : Environment) (ds : list dict) (user_content : json) :
  valid_text E user_content = true ->
  Forall (fun d => valid_text E (content_or_empty d) = true) ds ->
  exists turns,
    format_for_gemini E (JList (map JDict ds)) user_content
    = Ok (turns ++ [{| role := "user";
                       parts := [{| part_text := user_content |}] |}])%list
    /\ Forall2 turn_of ds turns
    /\ forall ws d w,
         replay E ws [JDict d] w
         = (send_text E ws (full_msg (field "role" d) (field "content" d)) ;;
            ret tt) w.
Proof.
  intros Hu Hds.
  destruct (format_records_dicts E ds Hds) as (turns & Hrec & Hall).
  exists turns. split; [|split; [exact Hall | reflexivity]].
  unfold format_for_gemini, py_iter, from_text. rewrite Hrec, Hu. reflexivity.
Qed.

(** C8 as stated is false for the replay: a record without a role is sent
    with role [None], not [user]; a record without content is sent with
    content [None], not the empty text; an unrecognized role is sent as it
    is stored. *)
Lemma replay_forwards_records_uncoerced :
  websocket_endpoint
    (sample_env []
       (answers (JList [JDict [("content", JStr "x")];
                        JDict [("role", JStr "assistant")];
                        JDict [("role", JStr "system"); ("content", JStr "y")]]))
       Done)
    7 (world0 [])
  = (Ok tt,
     {| active_connections := [];
        trace := [Http Get;
                  Sent 7 (full_msg JNull (JStr "x"));
                  Sent 7 (full_msg (JStr "assistant") JNull);
                  Sent 7 (full_msg (JStr "system") (JStr "y"))] |}).
Proof. reflexivity. Qed.

Lemma context_roles_and_defaults_witness :
  let E := sample_env [] unreachable Done in
  let ds := [[("content", JStr "x")];
             [("role", JStr "assistant")];
             [("role", JStr "system"); ("content", JStr "y")]] in
  exists turns,
    format_for_gemini E (JList (map JDict ds)) (JStr "hi")
    = Ok (turns ++ [{| role := "user";
                       parts := [{| part_text := JStr "hi" |}] |}])%list
    /\ Forall2 turn_of ds turns.
Proof.
  intros E ds.
  destruct (context_roles_and_defaults E ds (JStr "hi") eq_refl)
    as (turns & Hrun & Hall & _).
  - repeat constructor.
  - exists turns. split; [exact Hrun | exact Hall].
Defined.

(** * More of the connection manager *)

Lemma list_remove_absent (ws : WebSocket) (l : list WebSocket) :
  ~ In ws l -> list_remove ws l = l.
Proof.
  induction l as [|x l IH]; intros Hn; simpl; [reflexivity|].
  assert (Hx : x <> ws) by (intros ->; apply Hn; left; reflexivity).
  apply Nat.eqb_neq in Hx. rewrite Hx, IH; [reflexivity|].
  intros H. apply Hn. right. exact H.
Qed.

Lemma list_remove_In (ws c : WebSocket) (l : list WebSocket) :
  NoDup l -> (In c (list_remove ws l) <-> In c l /\ c <> ws).
Proof.
  induction 1 as [|x l Hx Hnd IH]; simpl; [tauto|].
  destruct (Nat.eqb_spec x ws) as [->|Hne].
  - split.
    + intros Hc. split; [right; exact Hc|]. intros ->. exact (Hx Hc).
    + intros [[Heq|Hc] Hcw]; [congruence | exact Hc].
  - simpl. rewrite IH. split.
    + intros [->|[Hc Hcw]]; [split; [left; reflexivity | exact Hne] | tauto].
    + intros [[->|Hc] Hcw]; [left; reflexivity | right; tauto].
Qed.

Lemma existsb_registered (ws : WebSocket) (l : list WebSocket) :
  existsb (Nat.eqb ws) l = true <-> In ws l.
Proof.
  rewrite existsb_exists. split.
  - intros (x & Hx & Heq). apply Nat.eqb_eq in Heq. subst. exact Hx.
  - intros H. exists ws. split; [exact H | apply Nat.eqb_refl].
Qed.

(** X1.  The registry never lists a socket twice: starting from a registry
    without repetition, [connect] of a socket that is not registered,
    [disconnect] of any socket and [broadcast] of any message all leave a
    registry without repetition. *)
Theorem registry_stays_duplicate_free
    (E : Environment) (ws : WebSocket) (message : json) (w : World) :
  NoDup (active_connections w) ->
  (~ In ws (active_connections w) ->
   NoDup (active_connections (snd (connect ws w))))
  /\ NoDup (active_connections (snd (disconnect ws w)))
  /\ NoDup (active_connections (snd (broadcast E message w))).
Proof.
  intros Hnd. split; [|split].
  - intros Hn. apply connect_NoDup; assumption.
  - apply disconnect_NoDup. exact Hnd.
  - rewrite broadcast_run. exact Hnd.
Qed.

Lemma registry_stays_duplicate_free_witness :
  NoDup (active_connections (snd (disconnect 2 (world0 [1; 2; 3]))))
  /\ NoDup (active_connections (snd (connect 4 (world0 [1; 2; 3])))).
Proof.
  assert (Hnd : NoDup (active_connections (world0 [1; 2; 3])))
    by (repeat constructor; simpl; intuition discriminate).
  destruct (registry_stays_duplicate_free
              (sample_env [] unreachable Done) 2 clear_msg (world0 [1; 2; 3]) Hnd)
    as (_ & Hd & _).
  destruct (registry_stays_duplicate_free
              (sample_env [] unreachable Done) 4 clear_msg (world0 [1; 2; 3]) Hnd)
    as (Hc & _ & _).
  split; [exact Hd|]. apply Hc. simpl. intuition discriminate.
Defined.

(** X2.  Connecting a socket that is not registered and then disconnecting
    it gives back the state before the connection: the registry in its
    former order, the trace untouched. *)
Theorem connect_then_disconnect_restores
    (ws : WebSocket) (w : World) :
  ~ In ws (active_connections w) ->
  disconnect ws (snd (connect ws w)) = (Ok tt, w).
Proof.
  intros Hn. unfold disconnect, connect. cbn [snd active_connections trace].
  rewrite registered_last, list_remove_last by exact Hn.
  destruct w; reflexivity.
Qed.

Lemma connect_then_disconnect_restores_witness :
  disconnect 5 (snd (connect 5 (world0 [1; 2]))) = (Ok tt, world0 [1; 2]).
Proof.
  apply (connect_then_disconnect_restores 5 (world0 [1; 2])).
  simpl. intuition discriminate.
Defined.

(** X3.  [disconnect] of a socket that is not registered changes nothing;
    over a registry without repetition, [disconnect] of a socket removes
    that socket and no other, and a second [disconnect] of it changes
    nothing more. *)
Theorem disconnect_removes_only_that_socket (ws : WebSocket) (w : World) :
  NoDup (active_connections w) ->
  (~ In ws (active_connections w) -> disconnect ws w = (Ok tt, w))
  /\ (forall c, In c (active_connections (snd (disconnect ws w)))
                <-> In c (active_connections w) /\ c <> ws)
  /\ disconnect ws (snd (disconnect ws w)) = (Ok tt, snd (disconnect ws w)).
Proof.
  intros Hnd.
  assert (Hno : forall w', ~ In ws (active_connections w') ->
                           disconnect ws w' = (Ok tt, w')).
  { intros w' Hn. unfold disconnect.
    destruct (existsb (Nat.eqb ws) (active_connections w')) eqn:He; [|reflexivity].
    apply existsb_registered in He. contradiction. }
  assert (Hin : forall c, In c (active_connections (snd (disconnect ws w)))
                          <-> In c (active_connections w) /\ c <> ws).
  { intros c. unfold disconnect.
    destruct (existsb (Nat.eqb ws) (active_connections w)) eqn:He; simpl.
    - apply list_remove_In. exact Hnd.
    - split; [|tauto]. intros Hc. split; [exact Hc|]. intros ->.
      apply existsb_registered in Hc. congruence. }
  split; [apply Hno|]. split; [exact Hin|].
  apply Hno. intros H. apply Hin in H. destruct H as [_ H]. apply H. reflexivity.
Qed.

Lemma disconnect_removes_only_that_socket_witness :
  active_connections (snd (disconnect 2 (world0 [1; 2; 3]))) = [1; 3]
  /\ disconnect 2 (snd (disconnect 2 (world0 [1; 2; 3])))
     = (Ok tt, snd (disconnect 2 (world0 [1; 2; 3]))).
Proof.
  split; [reflexivity|].
  apply (disconnect_removes_only_that_socket 2 (world0 [1; 2; 3])).
  repeat constructor; simpl; intuition discriminate.
Defined.

Lemma deliver_received_at_most_once
    (E : Environment) (c : WebSocket) (conns : list WebSocket) (m : json) :
  NoDup conns ->
  forall tr, received c (deliver E tr conns m) = []
             \/ received c (deliver E tr conns m) = [m].
Proof.
  induction 1 as [|c' cs Hc' Hnd IH]; intros tr; simpl; [left; reflexivity|].
  unfold attempt. destruct (Nat.eqb_spec c' c) as [->|Hne].
  - destruct (send_result E tr c m); simpl;
      rewrite ?Nat.eqb_refl, deliver_received_absent by exact Hc';
      [left | right]; reflexivity.
  - apply Nat.eqb_neq in Hne.
    destruct (send_result E tr c' m); simpl; rewrite ?Hne; apply IH.
Qed.

(** X4.  One broadcast reaches a socket at most once and reaches no socket
    that is not registered: over a registry without repetition, what any
    socket receives from the call is nothing or the message, once. *)
Theorem broadcast_reaches_each_socket_at_most_once
    (E : Environment) (message : json) (w : World) (c : WebSocket) :
  NoDup (active_connections w) ->
  exists sends,
    broadcast E message w = (Ok tt, grow w (Broadcast message :: sends))
    /\ (received c sends = [] \/ received c sends = [message])
    /\ (~ In c (active_connections w) -> received c sends = []).
Proof.
  intros Hnd. eexists. split; [apply broadcast_run|]. split.
  - apply deliver_received_at_most_once. exact Hnd.
  - intros Hn. apply deliver_received_absent. exact Hn.
Qed.

Lemma broadcast_reaches_each_socket_at_most_once_witness :
  exists sends,
    broadcast (sample_env [1] unreachable Done) clear_msg (world0 [1; 2])
    = (Ok tt, grow (world0 [1; 2]) (Broadcast clear_msg :: sends))
    /\ (received 2 sends = [] \/ received 2 sends = [clear_msg])
    /\ (~ In 2 (active_connections (world0 [1; 2])) -> received 2 sends = []).
Proof.
  apply (broadcast_reaches_each_socket_at_most_once
           (sample_env [1] unreachable Done) clear_msg (world0 [1; 2]) 2).
  repeat constructor; simpl; intuition discriminate.
Defined.

(** X5.  Broadcast calls made one after the other are delivered in call
    order: after the calls for the messages [ms], every registered viewer
    whose socket accepts has received exactly [ms], in that order, whatever
    the other sockets did. *)
Theorem broadcasts_arrive_in_call_order
    (E : Environment) (ms : list json) (w : World) :
  exists new,
    for_each ms (broadcast E) w = (Ok tt, grow w new)
    /\ broadcasts new = ms
    /\ (NoDup (active_connections w) ->
        forall c, In c (active_connections w) -> accepts E c ->
                  received c new = ms).
Proof.
  revert w. induction ms as [|m ms IH]; intros w.
  - exists []. simpl. unfold ret. rewrite grow_nil. repeat split.
  - simpl. unfold bind. rewrite broadcast_run.
    set (b := Broadcast m :: deliver E _ _ _).
    destruct (IH (grow w b)) as (new & Hrun & Hb & Hrecv).
    exists (b ++ new)%list. rewrite Hrun, grow_grow. split; [reflexivity|]. split.
    + rewrite broadcasts_app, Hb. unfold b. simpl.
      rewrite <- broadcasts_calls, deliver_calls. reflexivity.
    + intros Hnd c Hin Hacc. rewrite received_app, (Hrecv Hnd c Hin Hacc).
      unfold b. simpl. rewrite deliver_received by assumption. reflexivity.
Qed.

Lemma broadcasts_arrive_in_call_order_witness :
  exists new,
    for_each [user_msg (JStr "hi"); stream_end_msg]
      (broadcast (sample_env [1] unreachable Done)) (world0 [1; 2])
    = (Ok tt, grow (world0 [1; 2]) new)
    /\ received 2 new = [user_msg (JStr "hi"); stream_end_msg].
Proof.
  destruct (broadcasts_arrive_in_call_order (sample_env [1] unreachable Done)
              [user_msg (JStr "hi"); stream_end_msg] (world0 [1; 2]))
    as (new & Hrun & _ & Hrecv).
  exists new. split; [exact Hrun|]. apply Hrecv.
  - repeat constructor; simpl; intuition discriminate.
  - simpl. right. left. reflexivity.
  - intros tr m. reflexivity.
Defined.

(** * More of the helpers and of the generation task *)

(** X6.  [save_message] fails silently: whatever the worker answers and
    whether or not the request raises, the call returns, having issued its
    one POST with the role and the content it was given, sent nothing to
    any socket, broadcast nothing and left the registry alone. *)
Theorem save_message_fails_silently
    (E : Environment) (role : string) (content : json) (w : World) :
  exists new,
    save_message E role content w = (Ok tt, grow w new)
    /\ requests new = [Post role content]
    /\ broadcasts new = []
    /\ attempted new = [].
Proof.
  exists [Http (Post role content)]. rewrite save_message_run. repeat split.
Qed.

(** X7.  The history fetch of the generation task never raises and always
    issues exactly its GET.  It yields the empty history when the request
    raises, when the status is not 200, when the body is empty or is not
    JSON, when the JSON value is neither a list nor an object, and when it
    is an object without a [history] field. *)
Theorem fetch_degrades_to_empty (E : Environment) (w : World) :
  (exists raw, fetch_history E w = (Ok raw, grow w [Http Get]))
  /\ (forall e, http E (trace w) Get = HttpRaise e ->
                fst (fetch_history E w) = Ok (JList []))
  /\ (forall resp, http E (trace w) Get = HttpResp resp ->
                   status_code resp <> 200%Z \/ body resp = Blank
                   \/ body resp = Invalid ->
                   fst (fetch_history E w) = Ok (JList []))
  /\ (forall resp j, http E (trace w) Get = HttpResp resp ->
                     body resp = Json j ->
                     is_list j = false ->
                     (forall d, j = JDict d -> dict_get "history" d = None) ->
                     fst (fetch_history E w) = Ok (JList [])).
Proof.
  rewrite fetch_history_run. cbn [fst].
  destruct (fetched_empty (http E (trace w) Get)) as (Hr & Hs & Hb & Hj).
  split; [eexists; reflexivity|]. split; [|split].
  - intros e He. rewrite (Hr e He). reflexivity.
  - intros resp Hresp [H|H]; [rewrite (Hs resp Hresp H) | rewrite (Hb resp Hresp H)];
      reflexivity.
  - intros resp j Hresp Hbody Hl Hd. rewrite (Hj resp j Hresp Hbody Hl Hd). reflexivity.
Qed.

Lemma fetch_degrades_to_empty_witness :
  fst (fetch_history (sample_env [] unreachable Done) (world0 [1])) = Ok (JList [])
  /\ fst (fetch_history (sample_env [] (answers (JStr "oops")) Done) (world0 [1]))
     = Ok (JList []).
Proof.
  split.
  - apply (proj1 (proj2 (fetch_degrades_to_empty
                           (sample_env [] unreachable Done) (world0 [1])))
             (Exn (OtherException "ConnectError") "connection refused")).
    reflexivity.
  - apply (proj2 (proj2 (proj2 (fetch_degrades_to_empty
                                  (sample_env [] (answers (JStr "oops")) Done)
                                  (world0 [1]))))
             {| status_code := 200; body := Json (JStr "oops") |} (JStr "oops")).
    + reflexivity.
    + reflexivity.
    + reflexivity.
    + intros d H. discriminate.
Defined.

(** X8.  A failure of the backend is shown, not dropped.  When the context
    is assembled and the backend's stream raises [e] after the fragments
    [fs], the task returns; it has broadcast the fragments, then one
    fragment carrying the error text, then [stream_end]; it has posted
    nothing to the worker, so no partial message is persisted; and every
    registered viewer whose socket accepts has received exactly those
    frames in that order. *)
Theorem backend_failure_is_surfaced
    (E : Environment) (user_content : json) (w : World)
    (gemini_contents : list Content) (e : exn) :
  format_for_gemini E (fetched (http E (trace w) Get)) user_content
  = Ok gemini_contents ->
  failure (generate_content_stream E gemini_contents) = Some e ->
  let fs := fragments (generate_content_stream E gemini_contents) in
  exists new,
    generate_ai_response E user_content w = (Ok tt, grow w (Http Get :: new))
    /\ calls new
       = (map (fun t => Broadcast (stream_msg t)) fs
          ++ [Broadcast (stream_msg (" [Error generating response: "
                                      ++ exn_str e ++ "]"));
              Broadcast stream_end_msg])%list
    /\ requests new = []
    /\ (NoDup (active_connections w) ->
        forall c, In c (active_connections w) -> accepts E c ->
                  received c new
                  = (map stream_msg fs
                     ++ [stream_msg (" [Error generating response: "
                                     ++ exn_str e ++ "]");
                         stream_end_msg])%list).
Proof.
  intros Hfmt Hfail fs. pose proof (generate_run E user_content w) as H.
  rewrite Hfmt in H. destruct H as (new & Hrun & Hf & Hcalls).
  rewrite Hfail in Hcalls. fold fs in Hcalls.
  exists new. split; [exact Hrun|]. split; [exact Hcalls|]. split.
  - rewrite <- (requests_calls new), Hcalls, requests_app, requests_fragments.
    reflexivity.
  - intros Hnd c Hin Hacc. rewrite (Hf Hnd c Hin Hacc).
    rewrite <- (broadcasts_calls new), Hcalls, broadcasts_app, broadcasts_fragments.
    reflexivity.
Qed.

Lemma backend_failure_is_surfaced_witness :
  let E := sample_env [] (answers (JList []))
             (Yield {| text := Some "Hel" |}
                (Yield {| text := Some "lo" |}
                   (Fail (Exn (OtherException "ServerError") "503")))) in
  exists new,
    generate_ai_response E (JStr "hi") (world0 [1])
    = (Ok tt, grow (world0 [1]) (Http Get :: new))
    /\ requests new = []
    /\ received 1 new
       = [stream_msg "Hel"; stream_msg "lo";
          stream_msg " [Error generating response: 503]"; stream_end_msg].
Proof.
  intros E.
  destruct (backend_failure_is_surfaced E (JStr "hi") (world0 [1])
              [{| role := "user"; parts := [{| part_text := JStr "hi" |}] |}]
              (Exn (OtherException "ServerError") "503") eq_refl eq_refl)
    as (new & Hrun & _ & Hreq & Hrecv).
  exists new. split; [exact Hrun|]. split; [exact Hreq|].
  apply Hrecv.
  - repeat constructor; simpl; intuition discriminate.
  - left. reflexivity.
  - intros tr m. reflexivity.
Defined.

(** X9.  Whenever the context is assembled, the task returns and its
    broadcasts end with [stream_end], which occurs exactly once: it is the
    last broadcast and no earlier broadcast of the task is a
    [stream_end]. *)
Theorem assembled_generation_ends_with_one_stream_end
    (E : Environment) (user_content : json) (w : World)
    (gemini_contents : list Content) :
  format_for_gemini E (fetched (http E (trace w) Get)) user_content
  = Ok gemini_contents ->
  exists new earlier,
    generate_ai_response E user_content w = (Ok tt, grow w (Http Get :: new))
    /\ broadcasts new = (earlier ++ [stream_end_msg])%list
    /\ ~ In stream_end_msg earlier.
Proof.
  intros Hfmt.
  destruct (generation_closes_stream E user_content w gemini_contents Hfmt)
    as (new & Hrun & Hb & _).
  set (s := generate_content_stream E gemini_contents) in *.
  assert (Hno : ~ In stream_end_msg (map stream_msg (fragments s))).
  { intros Hin. apply in_map_iff in Hin. destruct Hin as (t & Ht & _). discriminate. }
  destruct (failure s) as [e|].
  - exists new, (map stream_msg (fragments s) ++ [stream_msg (error_chunk e)])%list.
    split; [exact Hrun|]. split.
    + rewrite Hb, <- app_assoc. reflexivity.
    + intros Hin. apply in_app_or in Hin. destruct Hin as [Hin|[Hin|[]]];
        [exact (Hno Hin) | discriminate].
  - exists new, (map stream_msg (fragments s)).
    split; [exact Hrun|]. split; [exact Hb | exact Hno].
Qed.

Lemma assembled_generation_ends_with_one_stream_end_witness :
  let E := sample_env [] unreachable (Fail (Exn (OtherException "ServerError") "503")) in
  exists new earlier,
    generate_ai_response E (JStr "hi") (world0 [1])
    = (Ok tt, grow (world0 [1]) (Http Get :: new))
    /\ broadcasts new = (earlier ++ [stream_end_msg])%list
    /\ ~ In stream_end_msg earlier.
Proof.
  intros E.
  exact (assembled_generation_ends_with_one_stream_end E (JStr "hi") (world0 [1])
           [{| role := "user"; parts := [{| part_text := JStr "hi" |}] |}] eq_refl).
Defined.

(** X10.  A failed history fetch degrades the context, it does not stop the
    task: when the fetch yields the empty history and the submitted text is
    one the backend's content type accepts, the context is the single user
    turn holding [user_content], and the task returns with the stream
    closed, its fragments being those the backend produces for that
    context. *)
Theorem generation_survives_history_failure
    (E : Environment) (user_content : json) (w : World) :
  fst (fetch_history E w) = Ok (JList []) ->
  valid_text E user_content = true ->
  let turn := {| role := "user"; parts := [{| part_text := user_content |}] |} in
  let s := generate_content_stream E [turn] in
  format_for_gemini E (JList []) user_content = Ok [turn]
  /\ exists new,
       generate_ai_response E user_content w = (Ok tt, grow w (Http Get :: new))
       /\ broadcasts new
          = (map stream_msg (fragments s)
             ++ match failure s with
                | None => [stream_end_msg]
                | Some e => [stream_msg (error_chunk e); stream_end_msg]
                end)%list.
Proof.
  intros Hfetch Hvalid turn s.
  rewrite fetch_history_run in Hfetch. cbn [fst] in Hfetch.
  injection Hfetch as Hraw.
  assert (Hfmt : format_for_gemini E (JList []) user_content = Ok [turn]).
  { unfold format_for_gemini, from_text. simpl. rewrite Hvalid. reflexivity. }
  split; [exact Hfmt|].
  rewrite <- Hraw in Hfmt.
  destruct (generation_closes_stream E user_content w [turn] Hfmt)
    as (new & Hrun & Hb & _).
  exists new. split; [exact Hrun | exact Hb].
Qed.

Lemma generation_survives_history_failure_witness :
  let E := sample_env [] unreachable hello_stream in
  exists new,
    generate_ai_response E (JStr "hi") (world0 [1])
    = (Ok tt, grow (world0 [1]) (Http Get :: new))
    /\ broadcasts new = [stream_msg "Hel"; stream_msg "lo"; stream_end_msg].
Proof.
  intros E.
  exact (proj2 (generation_survives_history_failure E (JStr "hi") (world0 [1])
                  eq_refl eq_refl)).
Defined.


Lemma format_record_raises (E : Environment) (msg : json) (e : exn) :
  format_record E msg = Raise e ->
  (is_dict msg = false /\ exn_cls e = AttributeError)
  \/ (is_dict msg = true /\ exn_cls e = ValidationError).
Proof.
  unfold format_record, py_get, from_text.
  destruct msg; try (intros H; injection H as <-; left; split; reflexivity).
  destruct (valid_text E _); [discriminate|].
  intros H. injection H as <-. right. split; reflexivity.
Qed.

Lemma format_records_raises (E : Environment) (msgs : list json) :
  Exists (fun msg => is_dict msg = false) msgs ->
  exists e, format_records E msgs = Raise e
            /\ (exn_cls e = AttributeError \/ exn_cls e = ValidationError).
Proof.
  induction 1 as [msg rest Hmsg | msg rest _ (e & He & Hcls)]; simpl.
  - destruct (format_record E msg) as [c|e] eqn:Hrec.
    + destruct msg; try discriminate Hmsg; discriminate Hrec.
    + exists e. split; [reflexivity|].
      destruct (format_record_raises E msg e Hrec) as [[_ H]|[_ H]]; auto.
  - destruct (format_record E msg) as [c|e'] eqn:Hrec.
    + rewrite He. exists e. split; [reflexivity | exact Hcls].
    + exists e'. split; [reflexivity|].
      destruct (format_record_raises E msg e' Hrec) as [[_ H]|[_ H]]; auto.
Qed.

(** X12.  The generation task does not guard the fetched history.  When
    the fetch yields a value a [for] loop cannot iterate ([None], a
    boolean, a number), or a list with a record that is not a dict, the
    task raises ([TypeError], [AttributeError], or the validation error of
    an earlier record) right after its GET: no frame is sent to any socket,
    nothing is broadcast, nothing is posted. *)
Theorem generation_raises_on_unusable_history
    (E : Environment) (user_content : json) (w : World) (raw : json) :
  fst (fetch_history E w) = Ok raw ->
  (raw = JNull \/ (exists b, raw = JBool b) \/ (exists n, raw = JNum n)
   \/ exists msgs, raw = JList msgs
                   /\ Exists (fun msg => is_dict msg = false) msgs) ->
  exists e,
    generate_ai_response E user_content w = (Raise e, grow w [Http Get])
    /\ (exn_cls e = TypeError \/ exn_cls e = AttributeError
        \/ exn_cls e = ValidationError).
Proof.
  intros Hfetch Hraw.
  rewrite fetch_history_run in Hfetch. cbn [fst] in Hfetch. injection Hfetch as Hf.
  pose proof (generate_run E user_content w) as H. rewrite Hf in H.
  assert (Hfmt : exists e, format_for_gemini E raw user_content = Raise e
                           /\ (exn_cls e = TypeError \/ exn_cls e = AttributeError
                               \/ exn_cls e = ValidationError)).
  { destruct Hraw as [->|[[b ->]|[[n ->]|(msgs & -> & Hex)]]];
      try (eexists; split; [reflexivity | left; reflexivity]).
    destruct (format_records_raises E msgs Hex) as (e & He & Hcls).
    exists e. unfold format_for_gemini, py_iter. rewrite He.
    split; [reflexivity | right; exact Hcls]. }
  destruct Hfmt as (e & He & Hcls). rewrite He in H.
  exists e. split; [exact H | exact Hcls].
Qed.

Lemma generation_raises_on_unusable_history_witness :
  let E := sample_env [1]
             (answers (JDict [("history",
                JList [JDict [("role", JStr "user"); ("content", JStr "a")];
                       JStr "b"])]))
             hello_stream in
  exists e,
    generate_ai_response E (JStr "hi") (world0 [1; 2])
    = (Raise e, grow (world0 [1; 2]) [Http Get])
    /\ (exn_cls e = TypeError \/ exn_cls e = AttributeError
        \/ exn_cls e = ValidationError).
Proof.
  intros E.
  apply (generation_raises_on_unusable_history E (JStr "hi") (world0 [1; 2])
           (JList [JDict [("role", JStr "user"); ("content", JStr "a")]; JStr "b"])).
  - reflexivity.
  - right. right. right. eexists. split; [reflexivity|].
    apply Exists_cons_tl. apply Exists_cons_hd. reflexivity.
Defined.

(** * More of the endpoints *)

Lemma bind_run {A B} (m : M A) (k : A -> M B) (w w' : World) (r : Result A) :
  m w = (r, w') ->
  bind m k w = match r with
               | Ok a => k a w'
               | Raise e => (Raise e, w')
               end.
Proof. intros H. unfold bind. rewrite H. reflexivity. Qed.

Lemma try_except_run (m : M unit) (w w' : World) (r : Result unit) :
  m w = (r, w') ->
  try_except m Exception (fun _ => ret tt) w = (Ok tt, w').
Proof.
  intros H. unfold try_except. rewrite H. destruct r as [[]|e]; reflexivity.
Qed.

(** The endpoint once the outcome of its history sync is known. *)
Lemma websocket_endpoint_after_sync
    (E : Environment) (ws : WebSocket) (w : World)
    (r : Result unit) (sends : list Effect) :
  let w0 := {| active_connections := (active_connections w ++ [ws])%list;
               trace := trace w |} in
  (resp <- http_request E Get ;;
   if (status_code resp =? 200)%Z && text_nonblank resp then
     json_data <- lift (resp_json resp) ;;
     let history := parse_worker_history json_data in
     msgs <- lift (py_iter history) ;;
     replay E ws msgs
   else ret tt) w0 = (r, grow w0 (Http Get :: sends)) ->
  websocket_endpoint E ws w
  = (Ok tt,
     {| active_connections := list_remove ws (active_connections w ++ [ws]);
        trace := (trace w ++ Http Get :: sends
                  ++ map (Received ws) (inbound E ws))%list |}).
Proof.
  intros w0 Hin. unfold websocket_endpoint.
  rewrite (bind_run (connect ws) _ w w0 (Ok tt) eq_refl).
  rewrite (bind_run _ _ _ _ _ (try_except_run _ _ _ _ Hin)).
  unfold try_except. rewrite receive_loop_run. cbn [is_WebSocketDisconnect exn_cls].
  unfold disconnect. cbn [active_connections grow w0].
  rewrite registered_last. unfold grow, w0. cbn [trace active_connections].
  rewrite <- !app_assoc. reflexivity.
Qed.

(** The replay to a socket that takes [k] more frames and then refuses. *)
Lemma replay_until_refused
    (E : Environment) (ws : WebSocket) (limit : nat) (e : exn) :
  (forall tr m, send_result E tr ws m
                = if Nat.ltb (List.length (received ws tr)) limit
                  then None else Some e) ->
  forall (ds : list dict) (k : nat) (w : World),
    limit = List.length (received ws (trace w)) + k ->
    replay E ws (map JDict ds) w
    = (match nth_error ds k with Some _ => Raise e | None => Ok tt end,
       grow w (map (fun d => Sent ws (replayed d)) (firstn k ds)
               ++ match nth_error ds k with
                  | Some d => [SendFailed ws (replayed d)]
                  | None => []
                  end)).
Proof.
  intros Horacle. unfold replay. set (body := fun msg : json => _).
  induction ds as [|d ds IH]; intros k w Hk.
  - destruct k; simpl; unfold ret; rewrite grow_nil; reflexivity.
  - cbn [map for_each]. unfold bind.
    change (body (JDict d) w) with (send_text E ws (replayed d) w).
    unfold send_text. rewrite Horacle.
    destruct k as [|k].
    + replace (List.length (received ws (trace w)) <? limit)%nat with false
        by (symmetry; apply Nat.ltb_ge; lia).
      reflexivity.
    + replace (List.length (received ws (trace w)) <? limit)%nat with true
        by (symmetry; apply Nat.ltb_lt; lia).
      change {| active_connections := active_connections w;
                trace := (trace w ++ [Sent ws (replayed d)])%list |}
        with (grow w [Sent ws (replayed d)]).
      rewrite (IH k (grow w [Sent ws (replayed d)])).
      * rewrite grow_grow. reflexivity.
      * rewrite grow_trace, received_app. cbn [received]. rewrite Nat.eqb_refl.
        rewrite length_app. cbn [List.length]. lia.
Qed.

(** X15.  A history sync that fails sends the new viewer nothing and does
    not end the connection.  When the GET raises, or is answered with a
    status other than 200, an empty body, a body that is not JSON, or a
    JSON value whose history cannot be iterated, the endpoint does its GET,
    then only takes the inbound frames until the disconnect, and
    returns. *)
Theorem failed_history_sync_sends_nothing
    (E : Environment) (ws : WebSocket) (w : World) :
  (exists e, http E (trace w) Get = HttpRaise e)
  \/ (exists resp, http E (trace w) Get = HttpResp resp
        /\ (status_code resp <> 200%Z \/ body resp = Blank \/ body resp = Invalid
            \/ exists j e, body resp = Json j
                           /\ py_iter (parse_worker_history j) = Raise e)) ->
  websocket_endpoint E ws w
  = (Ok tt,
     {| active_connections := list_remove ws (active_connections w ++ [ws]);
        trace := (trace w ++ Http Get :: map (Received ws) (inbound E ws))%list |}).
Proof.
  intros H.
  assert (Hin : exists r,
            (resp <- http_request E Get ;;
             if (status_code resp =? 200)%Z && text_nonblank resp then
               json_data <- lift (resp_json resp) ;;
               let history := parse_worker_history json_data in
               msgs <- lift (py_iter history) ;;
               replay E ws msgs
             else ret tt)
              {| active_connections := (active_connections w ++ [ws])%list;
                 trace := trace w |}
            = (r, grow {| active_connections := (active_connections w ++ [ws])%list;
                          trace := trace w |} (Http Get :: []))).
  { unfold bind at 1. rewrite http_request_run. cbn [trace].
    destruct H as [(e & ->)|(resp & -> & H)]; [eexists; reflexivity|].
    cbv beta iota. unfold text_nonblank, bind, lift, resp_json.
    destruct H as [H|[H|[H|(j & e & Hj & Hiter)]]].
    - apply Z.eqb_neq in H. rewrite H. eexists. reflexivity.
    - rewrite H. rewrite andb_false_r. eexists. reflexivity.
    - rewrite H. destruct (_ =? _)%Z; eexists; reflexivity.
    - rewrite Hj, Hiter. destruct (_ =? _)%Z; eexists; reflexivity. }
  destruct Hin as (r & Hin).
  exact (websocket_endpoint_after_sync E ws w r [] Hin).
Qed.

Lemma failed_history_sync_sends_nothing_witness :
  websocket_endpoint
    (sample_env [] (answers (JDict [("history", JNum 5)])) Done) 9 (world0 [1])
  = (Ok tt, {| active_connections := [1]; trace := [Http Get] |}).
Proof.
  rewrite (failed_history_sync_sends_nothing
             (sample_env [] (answers (JDict [("history", JNum 5)])) Done) 9 (world0 [1])).
  - reflexivity.
  - right. eexists. split; [reflexivity|].
    right. right. right. eexists. eexists. split; reflexivity.
Defined.

(** The whole submit request: the echo, the save, then the generation run
    from there. *)
Lemma serve_chat_run (E : Environment) (payload : dict) (w : World) :
  let c := content_or_empty payload in
  let before := (Broadcast (user_msg c)
                 :: deliver E (trace w ++ [Broadcast (user_msg c)])
                      (active_connections w) (user_msg c)
                 ++ [Http (Post "user" c)])%list in
  snd (serve_chat E payload w)
  = snd (generate_ai_response E c (grow w before)).
Proof.
  intros c before.
  assert (Hchat : chat_endpoint E payload w
                  = (Ok (JDict [("status", JStr "ok")],
                         [save_message E "user" c; generate_ai_response E c]),
                     grow w (Broadcast (user_msg c)
                             :: deliver E (trace w ++ [Broadcast (user_msg c)])
                                  (active_connections w) (user_msg c)))).
  { unfold chat_endpoint. fold (content_or_empty payload). fold c.
    unfold bind. rewrite broadcast_run. reflexivity. }
  unfold serve_chat. rewrite (bind_run _ _ _ _ _ Hchat).
  cbn [snd fst for_each].
  rewrite bind_assoc.
  rewrite (bind_run _ _ _ _ _ (save_message_run E "user" c _)).
  cbv beta iota. rewrite grow_grow.
  change ((Broadcast (user_msg c)
           :: deliver E (trace w ++ [Broadcast (user_msg c)])
                (active_connections w) (user_msg c))
          ++ [Http (Post "user" c)])%list with before.
  unfold bind. destruct (generate_ai_response E c (grow w before)) as [[[]|e] w'];
    reflexivity.
Qed.

(** X16.  The submit handler reads the [content] field and nothing else:
    a request behaves as the request holding only that content, and a
    request without the field behaves as one whose content is the empty
    text. *)
Theorem chat_reads_only_content
    (E : Environment) (payload : dict) (w : World) :
  serve_chat E payload w
  = serve_chat E [("content", content_or_empty payload)] w
  /\ (dict_get "content" payload = None ->
      serve_chat E payload w = serve_chat E [("content", JStr "")] w).
Proof.
  assert (H : serve_chat E payload w
              = serve_chat E [("content", content_or_empty payload)] w)
    by reflexivity.
  split; [exact H|]. intros Hnone. rewrite H. unfold content_or_empty.
  rewrite Hnone. reflexivity.
Qed.

Lemma chat_reads_only_content_witness :
  serve_chat (sample_env [] unreachable hello_stream)
    [("role", JStr "user")] (world0 [1])
  = serve_chat (sample_env [] unreachable hello_stream)
      [("content", JStr "")] (world0 [1]).
Proof.
  apply (proj2 (chat_reads_only_content (sample_env [] unreachable hello_stream)
                  [("role", JStr "user")] (world0 [1]))).
  reflexivity.
Defined.

Lemma format_records_snoc
    (E : Environment) (msgs : list json) (msg : json)
    (turns : list Content) (turn : Content) :
  format_records E msgs = Ok turns ->
  format_record E msg = Ok turn ->
  format_records E (msgs ++ [msg]) = Ok (turns ++ [turn])%list.
Proof.
  revert turns. induction msgs as [|m msgs IH]; intros turns Hall Hone; simpl in *.
  - injection Hall as <-. rewrite Hone. reflexivity.
  - destruct (format_record E m) as [c|e]; [|discriminate].
    destruct (format_records E msgs) as [cs|e]; [|discriminate].
    injection Hall as <-. rewrite (IH cs eq_refl Hone). reflexivity.
Qed.

(** X17.  The submitted message is saved before the history is fetched, so
    with a history worker that follows the protocol (the modelled worker:
    POST appends, GET returns the records) the message comes back in the
    fetched history and is then appended once more: the context the
    backend gets ends with the same user turn twice, and the fragments
    streamed are those the backend produces for that context. *)
Theorem submitted_message_reaches_backend_twice
    (E : Environment) (payload : dict) (c : json) (w : World) (ds : list dict) :
  dict_get "content" payload = Some c ->
  http E = worker_http ->
  store_after (requests (trace w)) [] = map JDict ds ->
  valid_text E c = true ->
  Forall (fun d => valid_text E (content_or_empty d) = true) ds ->
  let turn := {| role := "user"; parts := [{| part_text := c |}] |} in
  exists turns sends new,
    Forall2 turn_of ds turns
    /\ calls sends = []
    /\ snd (serve_chat E payload w)
       = grow w (Broadcast (user_msg c) :: sends
                 ++ Http (Post "user" c) :: Http Get :: new)
    /\ let s := generate_content_stream E (turns ++ [turn; turn]) in
       calls new
       = (map (fun t => Broadcast (stream_msg t)) (fragments s)
          ++ match failure s with
             | None => [Http (Post "assistant" (JStr (join (fragments s))));
                        Broadcast stream_end_msg]
             | Some e => [Broadcast (stream_msg (error_chunk e));
                          Broadcast stream_end_msg]
             end)%list.
Proof.
  intros Hc Hworker Hstore Hvc Hvds turn.
  destruct (format_records_dicts E ds Hvds) as (turns & Hrec & Hall).
  set (sends := deliver E (trace w ++ [Broadcast (user_msg c)])
                  (active_connections w) (user_msg c)).
  set (before := (Broadcast (user_msg c) :: sends ++ [Http (Post "user" c)])%list).
  assert (Hcontent : content_or_empty payload = c)
    by (unfold content_or_empty; rewrite Hc; reflexivity).
  pose proof (serve_chat_run E payload w) as Hserve.
  cbv zeta in Hserve. rewrite Hcontent in Hserve. fold sends before in Hserve.
  assert (Hfetched : fetched (http E (trace (grow w before)) Get)
                     = JList (map JDict ds ++ [JDict [("role", JStr "user");
                                                      ("content", c)]])).
  { rewrite Hworker. unfold worker_http, fetched. cbn [status_code body Z.eqb Pos.eqb].
    rewrite grow_trace, requests_app, store_after_app, Hstore.
    unfold before. cbn [requests]. rewrite requests_app.
    rewrite <- (requests_calls sends). unfold sends. rewrite deliver_calls.
    reflexivity. }
  assert (Hfmt : format_for_gemini E (fetched (http E (trace (grow w before)) Get)) c
                 = Ok (turns ++ [turn; turn])%list).
  { rewrite Hfetched. unfold format_for_gemini. cbn [py_iter].
    rewrite (format_records_snoc E (map JDict ds)
               (JDict [("role", JStr "user"); ("content", c)]) turns turn Hrec).
    - unfold from_text. rewrite Hvc. rewrite <- app_assoc. reflexivity.
    - unfold format_record, py_get, from_text. cbn. rewrite Hvc. reflexivity. }
  pose proof (generate_run E c (grow w before)) as Hgen. rewrite Hfmt in Hgen.
  destruct Hgen as (new & Hrun & _ & Hcalls).
  exists turns, sends, new. split; [exact Hall|].
  split; [apply deliver_calls|]. split; [|exact Hcalls].
  rewrite Hserve, Hrun. cbn [snd]. rewrite grow_grow. unfold before.
  cbn [app]. rewrite <- app_assoc. reflexivity.
Qed.

Lemma submitted_message_reaches_backend_twice_witness :
  let E := {| send_result := fun _ _ _ => None;
              http := worker_http;
              generate_content_stream := fun ctx =>
                Yield {| text := Some (if Nat.eqb (List.length ctx) 2
                                       then "twice" else "once") |} Done;
              valid_text := fun _ => true;
              inbound := fun _ => [] |} in
  broadcasts (trace (snd (serve_chat E [("content", JStr "hi")] (world0 []))))
  = [user_msg (JStr "hi"); stream_msg "twice"; stream_end_msg].
Proof.
  intros E.
  destruct (submitted_message_reaches_backend_twice E [("content", JStr "hi")]
              (JStr "hi") (world0 []) [] eq_refl eq_refl eq_refl eq_refl
              (Forall_nil _))
    as (turns & sends & new & Hall & Hs & Hrun & Hcalls).
  inversion Hall; subst. rewrite Hrun. cbn [trace grow world0 app].
  rewrite <- (broadcasts_calls (_ :: _)). cbn [calls].
  rewrite calls_app, Hs. cbn [app calls]. rewrite Hcalls. reflexivity.
Defined.

(** The task once its context is assembled, written out. *)
Lemma generate_unfold (E : Environment) (user_content : json) (w : World) :
  generate_ai_response E user_content w
  = match format_for_gemini E (fetched (http E (trace w) Get)) user_content with
    | Raise e => (Raise e, grow w [Http Get])
    | Ok gemini_contents =>
        match stream_loop E (generate_content_stream E gemini_contents) ""
                (grow w [Http Get]) with
        | (Ok full_response, w1) =>
            broadcast E stream_end_msg (grow w1 [Http (Post "assistant"
                                                        (JStr full_response))])
        | (Raise e, w1) =>
            (broadcast E (stream_msg (error_chunk e)) ;;
             broadcast E stream_end_msg) w1
        end
    end.
Proof.
  unfold generate_ai_response.
  rewrite (bind_run _ _ _ _ _ (fetch_history_run E w)).
  unfold bind at 1, lift.
  destruct (format_for_gemini E _ user_content) as [ctx|e]; [|reflexivity].
  unfold try_except, bind at 1.
  destruct (stream_loop E (generate_content_stream E ctx) "" (grow w [Http Get]))
    as [[full|e] w1].
  - rewrite (bind_run _ _ _ _ _ (save_message_run E "assistant" (JStr full) w1)).
    rewrite broadcast_run. reflexivity.
  - reflexivity.
Qed.

(** X18.  The two answer shapes of the worker are handled alike.  Two
    workers that answer the history GET with status 200, one with the
    object [{"history": msgs}] and one with the bare list [msgs], give the
    same run of the generation task and the same run of the viewer
    endpoint, everything else being equal. *)
Theorem wrapped_and_bare_history_alike
    (E : Environment) (worker1 worker2 : list Effect -> Request -> HttpOutcome)
    (d : dict) (msgs : list json) (user_content : json) (ws : WebSocket)
    (w : World) :
  worker1 (trace w) Get
  = HttpResp {| status_code := 200; body := Json (JDict d) |} ->
  worker2 (trace w) Get
  = HttpResp {| status_code := 200; body := Json (JList msgs) |} ->
  dict_get "history" d = Some (JList msgs) ->
  generate_ai_response (with_http E worker1) user_content w
  = generate_ai_response (with_http E worker2) user_content w
  /\ websocket_endpoint (with_http E worker1) ws w
     = websocket_endpoint (with_http E worker2) ws w.
Proof.
  intros H1 H2 Hd. split.
  - rewrite !generate_unfold. cbn [http with_http]. rewrite H1, H2.
    unfold fetched. cbn [status_code body Z.eqb Pos.eqb parse_worker_history].
    rewrite Hd. reflexivity.
  - unfold websocket_endpoint, bind, try_except, connect, http_request.
    cbn [http with_http trace]. rewrite H1, H2.
    cbn [status_code body Z.eqb Pos.eqb andb text_nonblank lift resp_json
         parse_worker_history].
    rewrite Hd. reflexivity.
Qed.

Lemma wrapped_and_bare_history_alike_witness :
  let E := sample_env [] unreachable hello_stream in
  let msgs := [JDict [("role", JStr "user"); ("content", JStr "a")]] in
  websocket_endpoint (with_http E (answers (JDict [("history", JList msgs)]))) 9
    (world0 [1])
  = websocket_endpoint (with_http E (answers (JList msgs))) 9 (world0 [1]).
Proof.
  intros E msgs.
  exact (proj2 (wrapped_and_bare_history_alike E
                  (answers (JDict [("history", JList msgs)]))
                  (answers (JList msgs))
                  [("history", JList msgs)] msgs (JStr "hi") 9 (world0 [1])
                  eq_refl eq_refl eq_refl)).
Defined.

(** * The client page *)

Lemma append_text_at (pre post : list Div) (d : Div) (s : string) :
  append_text (List.length pre) s (pre ++ d :: post)
  = (pre ++ {| className := className d; textContent := textContent d ++ s |}
         :: post)%list.
Proof. induction pre as [|x pre IH]; simpl; [reflexivity | rewrite IH; reflexivity]. Qed.

Lemma append_text_length (i : nat) (s : string) (divs : list Div) :
  List.length (append_text i s divs) = List.length divs.
Proof.
  revert i. induction divs as [|d divs IH]; intros [|i]; simpl;
    rewrite ?IH; reflexivity.
Qed.

Lemma render_app (B : Browser) (a b : list json) (page : Page) :
  render B (a ++ b) page = render B b (render B a page).
Proof. unfold render. apply fold_left_app. Qed.

(** Chunks that arrive while a stream [div] is in progress are appended to
    that [div], wherever it stands in the chat box. *)
Lemma render_chunks (B : Browser) (pre post : list Div) (ts : list string) :
  keeps_strings B ->
  forall d,
    render B (map stream_msg ts)
      {| chatBox := (pre ++ d :: post)%list;
         currentStreamDiv := Some (List.length pre) |}
    = {| chatBox := (pre ++ {| className := className d;
                               textContent := textContent d ++ join ts |}
                         :: post)%list;
         currentStreamDiv := Some (List.length pre) |}.
Proof.
  intros HB. induction ts as [|t ts IH]; intros d.
  - simpl. rewrite string_app_nil_r. destruct d; reflexivity.
  - change (render B (map stream_msg (t :: ts)) ?p)
      with (render B (map stream_msg ts) (onmessage B (stream_msg t) p)).
    change (onmessage B (stream_msg t) ?p)
      with (stream_chunk B (Some (JStr t)) p).
    unfold stream_chunk. cbn [currentStreamDiv chatBox].
    rewrite (proj2 (HB t)), append_text_at, IH. cbn [className textContent join fold_right].
    rewrite string_app_assoc. reflexivity.
Qed.

(** The frames of one response, on a page with no stream in progress. *)
Lemma render_stream (B : Browser) (ts : list string) (page : Page) :
  keeps_strings B ->
  currentStreamDiv page = None ->
  render B (map stream_msg ts ++ [stream_end_msg]) page
  = {| chatBox := (chatBox page
                   ++ match ts with
                      | [] => []
                      | _ => [shown "assistant" (join ts)]
                      end)%list;
       currentStreamDiv := None |}.
Proof.
  intros HB Hnone. rewrite render_app. destruct ts as [|t ts].
  - simpl. rewrite app_nil_r. reflexivity.
  - change (render B (map stream_msg (t :: ts)) page)
      with (render B (map stream_msg ts) (stream_chunk B (Some (JStr t)) page)).
    unfold stream_chunk. rewrite Hnone. cbn [currentStreamDiv chatBox].
    rewrite (proj2 (HB t)).
    rewrite (append_text_at (chatBox page) []
               {| className := "msg assistant"; textContent := "" |} t).
    rewrite (render_chunks B (chatBox page) [] ts HB). reflexivity.
Qed.

Lemma append_text_ok (i : nat) (s : string) (page : Page) :
  page_ok page ->
  page_ok {| chatBox := append_text i s (chatBox page);
             currentStreamDiv := currentStreamDiv page |}.
Proof.
  unfold page_ok. cbn [currentStreamDiv chatBox]. rewrite append_text_length. tauto.
Qed.

(** X19.  The page stays consistent under every frame, whatever its shape:
    when the stream [div] in progress (if any) is a child of the chat box
    before a frame is handled, it is one after. *)
Theorem page_stays_consistent (B : Browser) (data : json) (page : Page) :
  page_ok page -> page_ok (onmessage B data page).
Proof.
  intros Hok.
  assert (Hadd : forall r t, page_ok (addMessage B r t page)).
  { intros r t. unfold page_ok, addMessage in *. cbn [currentStreamDiv chatBox].
    destruct (currentStreamDiv page); [|exact I].
    rewrite length_app. simpl. lia. }
  assert (Hchunk : forall c, page_ok (stream_chunk B c page)).
  { intros c. unfold stream_chunk.
    destruct (currentStreamDiv page) as [i|] eqn:Hcur; cbv zeta.
    - rewrite Hcur. unfold page_ok in *. cbn [currentStreamDiv chatBox].
      rewrite append_text_length. rewrite Hcur in Hok. exact Hok.
    - unfold page_ok. cbn [currentStreamDiv chatBox].
      rewrite append_text_length, length_app. simpl. lia. }
  assert (Hend : forall p, page_ok {| chatBox := chatBox p; currentStreamDiv := None |})
    by (intros p; exact I).
  unfold onmessage.
  destruct data; try exact Hok;
    repeat match goal with
           | |- page_ok (if ?b then _ else _) => destruct b
           end;
    auto; exact I.
Qed.

Lemma page_stays_consistent_witness :
  page_ok (onmessage sample_browser (stream_msg "Hel")
             {| chatBox := [shown "user" "hi"]; currentStreamDiv := None |}).
Proof.
  apply (page_stays_consistent sample_browser (stream_msg "Hel")
           {| chatBox := [shown "user" "hi"]; currentStreamDiv := None |}).
  exact I.
Defined.

(** X20.  On a page with no stream in progress, the frames of one response
    (its fragments, then [stream_end]) add exactly one assistant [div]
    holding the concatenation of the fragments, leave every earlier [div]
    as it was, and leave no stream in progress; a response without
    fragments adds nothing. *)
Theorem streamed_response_fills_one_div
    (B : Browser) (fs : list string) (page : Page) :
  keeps_strings B ->
  currentStreamDiv page = None ->
  render B (map stream_msg fs ++ [stream_end_msg]) page
  = {| chatBox := (chatBox page
                   ++ match fs with
                      | [] => []
                      | _ => [{| className := "msg assistant";
                                 textContent := join fs |}]
                      end)%list;
       currentStreamDiv := None |}.
Proof. intros HB Hnone. exact (render_stream B fs page HB Hnone). Qed.

Lemma streamed_response_fills_one_div_witness :
  render sample_browser [stream_msg "Hel"; stream_msg "lo"; stream_end_msg]
    {| chatBox := [shown "user" "hi"]; currentStreamDiv := None |}
  = {| chatBox := [shown "user" "hi"; shown "assistant" "Hello"];
       currentStreamDiv := None |}.
Proof.
  apply (streamed_response_fills_one_div sample_browser ["Hel"; "lo"]
           {| chatBox := [shown "user" "hi"]; currentStreamDiv := None |}).
  - intros s. split; reflexivity.
  - reflexivity.
Defined.

Lemma join_app (a b : list string) : join (a ++ b) = join a ++ join b.
Proof.
  induction a as [|x a IH]; simpl; [reflexivity|].
  unfold join in *. simpl. rewrite IH, string_app_assoc. reflexivity.
Qed.



(** A stored record the page shows: its role is [user] or [assistant] and
    its content is a string; [dv] is the [div] shown for it. *)
Lemma onmessage_replayed
    (B : Browser) (d : dict) (r c : string) (page : Page) :
  keeps_strings B ->
  field "role" d = JStr r -> r = "user" \/ r = "assistant" ->
  field "content" d = JStr c ->
  onmessage B (replayed d) page
  = {| chatBox := (chatBox page ++ [shown r c])%list;
       currentStreamDiv := currentStreamDiv page |}.
Proof.
  intros HB Hr Hrole Hc. unfold replayed. rewrite Hr, Hc.
  destruct Hrole as [->| ->]; unfold onmessage, full_msg, addMessage;
    cbn; rewrite (proj1 (HB c)); reflexivity.
Qed.

Lemma render_replayed
    (B : Browser) (ds : list dict) (divs : list Div) :
  keeps_strings B ->
  Forall2 (fun d dv => exists r c,
             field "role" d = JStr r /\ (r = "user" \/ r = "assistant")
             /\ field "content" d = JStr c /\ dv = shown r c) ds divs ->
  forall page,
    render B (map replayed ds) page
    = {| chatBox := (chatBox page ++ divs)%list;
         currentStreamDiv := currentStreamDiv page |}.
Proof.
  intros HB. induction 1 as [|d dv ds divs (r & c & Hr & Hrole & Hc & ->) _ IH];
    intros page.
  - simpl. rewrite app_nil_r. destruct page; reflexivity.
  - change (render B (map replayed (d :: ds)) page)
      with (render B (map replayed ds) (onmessage B (replayed d) page)).
    rewrite (onmessage_replayed B d r c page HB Hr Hrole Hc), IH.
    cbn [chatBox currentStreamDiv]. rewrite <- app_assoc. reflexivity.
Qed.

(** X22.  A new viewer's page shows the stored conversation.  When the
    worker answers with stored records whose roles are [user] or
    [assistant] and whose contents are strings, and the new viewer's socket
    accepts, the page of the viewer, empty at the start, shows after the
    frames it received one [div] per record, in history order, with the
    record's role as its class and the record's content as its text, and
    no stream in progress. *)
Theorem new_viewer_page_shows_history
    (E : Environment) (B : Browser) (ws : WebSocket) (w : World)
    (resp : Response) (j : json) (ds : list dict) (divs : list Div) :
  ~ In ws (active_connections w) ->
  http E (trace w) Get = HttpResp resp ->
  status_code resp = 200%Z ->
  body resp = Json j ->
  parse_worker_history j = JList (map JDict ds) ->
  accepts E ws ->
  keeps_strings B ->
  Forall2 (fun d dv => exists r c,
             field "role" d = JStr r /\ (r = "user" \/ r = "assistant")
             /\ field "content" d = JStr c /\ dv = shown r c) ds divs ->
  exists new,
    websocket_endpoint E ws w = (Ok tt, grow w new)
    /\ render B (received ws new) {| chatBox := []; currentStreamDiv := None |}
       = {| chatBox := divs; currentStreamDiv := None |}.
Proof.
  intros Hnew Hget Hstatus Hbody Hparse Hacc HB Hds.
  eexists. split.
  - exact (websocket_endpoint_run E ws w resp j ds
             Hnew Hget Hstatus Hbody Hparse Hacc).
  - cbn [received]. rewrite received_app, received_replayed, received_inbound,
      Nat.eqb_refl, app_nil_r.
    exact (render_replayed B ds divs HB Hds _).
Qed.

Lemma new_viewer_page_shows_history_witness :
  let E := sample_env []
             (answers (JList [JDict [("role", JStr "user"); ("content", JStr "a")];
                              JDict [("role", JStr "assistant"); ("content", JStr "b")]]))
             Done in
  exists new,
    websocket_endpoint E 9 (world0 [1]) = (Ok tt, grow (world0 [1]) new)
    /\ render sample_browser (received 9 new)
         {| chatBox := []; currentStreamDiv := None |}
       = {| chatBox := [shown "user" "a"; shown "assistant" "b"];
            currentStreamDiv := None |}.
Proof.
  intros E.
  apply (new_viewer_page_shows_history E sample_browser 9 (world0 [1])
           {| status_code := 200;
              body := Json (JList [JDict [("role", JStr "user"); ("content", JStr "a")];
                                   JDict [("role", JStr "assistant");
                                          ("content", JStr "b")]]) |}
           (JList [JDict [("role", JStr "user"); ("content", JStr "a")];
                   JDict [("role", JStr "assistant"); ("content", JStr "b")]])
           [[("role", JStr "user"); ("content", JStr "a")];
            [("role", JStr "assistant"); ("content", JStr "b")]]).
  - simpl. intuition discriminate.
  - reflexivity.
  - reflexivity.
  - reflexivity.
  - reflexivity.
  - intros tr m. reflexivity.
  - intros s. split; reflexivity.
  - constructor; [|constructor; [|constructor]].
    + exists "user", "a". repeat split. left. reflexivity.
    + exists "assistant", "b". repeat split. right. reflexivity.
Defined.

(** X23.  The page shows a replayed record only when its stored role is
    the string [user] or the string [assistant]: for every other stored
    role ([model], [system], a value that is not a string) and for a record
    without a role, the frame of the replay leaves the page exactly as it
    was. *)
Theorem replayed_record_of_other_role_is_not_shown
    (B : Browser) (d : dict) (page : Page) :
  field "role" d <> JStr "user" ->
  field "role" d <> JStr "assistant" ->
  onmessage B (replayed d) page = page.
Proof.
  intros Hu Ha. unfold replayed, onmessage, full_msg. cbn.
  destruct (field "role" d) as [| | |s| |]; try reflexivity.
  destruct (String.eqb_spec s "user") as [->|_]; [congruence|].
  destruct (String.eqb_spec s "assistant") as [->|_]; [congruence|].
  reflexivity.
Qed.

Lemma replayed_record_of_other_role_is_not_shown_witness :
  render sample_browser
    [replayed [("role", JStr "model"); ("content", JStr "b")];
     replayed [("content", JStr "x")]]
    {| chatBox := [shown "user" "a"]; currentStreamDiv := None |}
  = {| chatBox := [shown "user" "a"]; currentStreamDiv := None |}.
Proof.
  unfold render. cbn [fold_left].
  rewrite (replayed_record_of_other_role_is_not_shown sample_browser
             [("role", JStr "model"); ("content", JStr "b")]);
    [|discriminate|discriminate].
  apply (replayed_record_of_other_role_is_not_shown sample_browser
           [("content", JStr "x")]); discriminate.
Defined.

(** X24.  A reset as a viewer sees it.  For a registered viewer whose
    socket accepts: when the delete request is answered, handling the
    frames of the reset leaves the viewer's page empty with no stream in
    progress, whatever it showed; when the delete request raises, the
    viewer receives nothing and its page stays as it was. *)
Theorem reset_as_seen_by_a_viewer
    (E : Environment) (B : Browser) (w : World) (c : WebSocket) (page : Page) :
  NoDup (active_connections w) ->
  In c (active_connections w) ->
  accepts E c ->
  exists new,
    reset_history E w = (Ok (JDict [("status", JStr "reset")]), grow w new)
    /\ render B (received c new) page
       = match http E (trace w) Delete with
         | HttpResp _ => {| chatBox := []; currentStreamDiv := None |}
         | HttpRaise _ => page
         end.
Proof.
  intros Hnd Hin Hacc. rewrite reset_history_run.
  destruct (http E (trace w) Delete) as [e|resp]; eexists; (split; [reflexivity|]).
  - reflexivity.
  - cbn [received]. rewrite deliver_received by assumption. reflexivity.
Qed.

Lemma reset_as_seen_by_a_viewer_witness :
  exists new,
    reset_history (sample_env [] worker_http Done) (world0 [1; 2])
    = (Ok (JDict [("status", JStr "reset")]), grow (world0 [1; 2]) new)
    /\ render sample_browser (received 2 new)
         {| chatBox := [shown "user" "hi"; shown "assistant" "Hel"];
            currentStreamDiv := Some 1 |}
       = {| chatBox := []; currentStreamDiv := None |}.
Proof.
  apply (reset_as_seen_by_a_viewer (sample_env [] worker_http Done) sample_browser
           (world0 [1; 2]) 2
           {| chatBox := [shown "user" "hi"; shown "assistant" "Hel"];
              currentStreamDiv := Some 1 |}).
  - repeat constructor; simpl; intuition discriminate.
  - right. left. reflexivity.
  - intros tr m. reflexivity.
Defined.

(** X25.  A message that arrives in the middle of a stream does not break
    it: on a page with no stream in progress, after the fragments [f ::
    fs1], the echo of a user message [u], the fragments [fs2] and
    [stream_end], the page shows one assistant [div] holding all the
    fragments in order and, below it, the user message. *)
Theorem stream_survives_interleaved_message
    (B : Browser) (f : string) (fs1 fs2 : list string) (u : string)
    (page : Page) :
  keeps_strings B ->
  currentStreamDiv page = None ->
  render B (map stream_msg (f :: fs1) ++ user_msg (JStr u)
            :: map stream_msg fs2 ++ [stream_end_msg]) page
  = {| chatBox := (chatBox page
                   ++ [shown "assistant" (join (f :: fs1 ++ fs2));
                       shown "user" u])%list;
       currentStreamDiv := None |}.
Proof.
  intros HB Hnone. rewrite render_app.
  change (render B (map stream_msg (f :: fs1)) page)
    with (render B (map stream_msg fs1) (stream_chunk B (Some (JStr f)) page)).
  unfold stream_chunk at 1. rewrite Hnone. cbn [currentStreamDiv chatBox].
  rewrite (proj2 (HB f)).
  rewrite (append_text_at (chatBox page) []
             {| className := "msg assistant"; textContent := "" |} f).
  rewrite (render_chunks B (chatBox page) [] fs1 HB).
  cbn [className textContent append].
  change (render B (user_msg (JStr u) :: ?l) ?p)
    with (render B l (onmessage B (user_msg (JStr u)) p)).
  change (onmessage B (user_msg (JStr u)) ?p)
    with (addMessage B "user" (Some (JStr u)) p).
  unfold addMessage. cbn [chatBox currentStreamDiv]. rewrite (proj1 (HB u)).
  rewrite <- app_assoc. cbn [app].
  rewrite render_app, (render_chunks B (chatBox page) _ fs2 HB).
  cbn [className textContent render fold_left].
  change (join (f :: fs1 ++ fs2)) with (f ++ join (fs1 ++ fs2)).
  rewrite join_app, string_app_assoc. reflexivity.
Qed.

Lemma stream_survives_interleaved_message_witness :
  render sample_browser
    [stream_msg "Hel"; user_msg (JStr "wait"); stream_msg "lo"; stream_end_msg]
    {| chatBox := []; currentStreamDiv := None |}
  = {| chatBox := [shown "assistant" "Hello"; shown "user" "wait"];
       currentStreamDiv := None |}.
Proof.
  apply (stream_survives_interleaved_message sample_browser "Hel" [] ["lo"] "wait"
           {| chatBox := []; currentStreamDiv := None |}).
  - intros s. split; reflexivity.
  - reflexivity.
Defined.



(** * The replay loop and the viewer's session *)

Lemma filter_dicts (history : list json) :
  filter is_dict history = map JDict (dicts_of history).
Proof.
  induction history as [|msg rest IH]; [reflexivity|].
  destruct msg; simpl; rewrite IH; reflexivity.
Qed.

(** The replay to a socket that accepts: one frame per dict record, in
    order, whatever stands between them. *)
Lemma replay_dicts (E : Environment) (ws : WebSocket) (history : list json) :
  accepts E ws ->
  forall w, replay E ws history w
            = (Ok tt, grow w (map (fun d => Sent ws (replayed d))
                                (dicts_of history))).
Proof.
  intros Hacc w. rewrite replay_filter, filter_dicts.
  apply replay_run. exact Hacc.
Qed.

(** The whole endpoint for a socket that accepts, whatever the worker
    answers. *)
Lemma websocket_endpoint_synced (E : Environment) (ws : WebSocket) (w : World) :
  accepts E ws ->
  websocket_endpoint E ws w
  = (Ok tt,
     {| active_connections := list_remove ws (active_connections w ++ [ws]);
        trace := (trace w
                  ++ Http Get
                  :: map (fun d => Sent ws (replayed d))
                       (synced (http E (trace w) Get))
                  ++ map (Received ws) (inbound E ws))%list |}).
Proof.
  intros Hacc.
  assert (Hin : exists r,
            (resp <- http_request E Get ;;
             if (status_code resp =? 200)%Z && text_nonblank resp then
               json_data <- lift (resp_json resp) ;;
               let history := parse_worker_history json_data in
               msgs <- lift (py_iter history) ;;
               replay E ws msgs
             else ret tt)
              {| active_connections := (active_connections w ++ [ws])%list;
                 trace := trace w |}
            = (r, grow {| active_connections := (active_connections w ++ [ws])%list;
                          trace := trace w |}
                    (Http Get :: map (fun d => Sent ws (replayed d))
                                   (synced (http E (trace w) Get))))).
  { unfold bind at 1. rewrite http_request_run. cbn [trace]. unfold synced.
    destruct (http E (trace w) Get) as [e|resp]; [eexists; reflexivity|].
    cbv beta iota.
    destruct ((status_code resp =? 200)%Z && text_nonblank resp);
      [|eexists; reflexivity].
    unfold bind, lift.
    destruct (resp_json resp) as [j|e]; [|eexists; reflexivity].
    destruct (py_iter (parse_worker_history j)) as [msgs|e]; [|eexists; reflexivity].
    rewrite (replay_dicts E ws msgs Hacc), grow_grow. eexists. reflexivity. }
  destruct Hin as (r & Hin).
  exact (websocket_endpoint_after_sync E ws w r _ Hin).
Qed.

(** C10.  In the replay loop a record that is not a dict is passed over:
    nothing is sent for it, the loop does not fail on it, and the loop goes
    on with the records after it; a dict record is sent, and then the loop
    goes on with the records after it.  So the replay over a history is the
    replay over its dict records, a history without any dict replays to
    nothing and returns, and to a socket that accepts the loop sends
    exactly the frames of the dict records, in history order, wherever the
    other records stand.  For a new viewer whose socket accepts, when the
    worker answers 200 with the list [history], the endpoint returns and
    what the viewer has received more is the frames of the dict records of
    [history], in order. *)
Theorem replay_skips_non_dict_records
    (E : Environment) (ws : WebSocket) (history : list json) (w : World) :
  (forall msg rest, is_dict msg = false ->
                    replay E ws (msg :: rest) w = replay E ws rest w)
  /\ (forall d rest,
        replay E ws (JDict d :: rest) w
        = (send_text E ws (replayed d) ;; replay E ws rest) w)
  /\ replay E ws history w = replay E ws (filter is_dict history) w
  /\ replay E ws (filter (fun msg => negb (is_dict msg)) history) w = (Ok tt, w)
  /\ (accepts E ws ->
      replay E ws history w
      = (Ok tt, grow w (map (fun d => Sent ws (replayed d)) (dicts_of history))))
  /\ (accepts E ws ->
      forall resp j,
        http E (trace w) Get = HttpResp resp ->
        status_code resp = 200%Z ->
        body resp = Json j ->
        parse_worker_history j = JList history ->
        fst (websocket_endpoint E ws w) = Ok tt
        /\ received ws (trace (snd (websocket_endpoint E ws w)))
           = (received ws (trace w) ++ map replayed (dicts_of history))%list).
Proof.
  split; [|split; [|split; [|split; [|split]]]].
  - intros msg rest Hmsg. destruct msg; try discriminate Hmsg; reflexivity.
  - intros d rest. reflexivity.
  - apply replay_filter.
  - unfold replay. induction history as [|msg rest IH]; [reflexivity|].
    destruct msg; simpl; try exact IH; unfold bind, ret; simpl; exact IH.
  - intros Hacc. apply replay_dicts. exact Hacc.
  - intros Hacc resp j Hget Hstatus Hbody Hparse.
    rewrite (websocket_endpoint_synced E ws w Hacc). cbn [fst snd trace].
    split; [reflexivity|].
    rewrite Hget. unfold synced, text_nonblank, resp_json.
    rewrite Hstatus, Hbody, Hparse. cbn [Z.eqb Pos.eqb andb py_iter].
    rewrite received_app. cbn [received].
    rewrite received_app, received_replayed, received_inbound, Nat.eqb_refl, app_nil_r.
    reflexivity.
Qed.

Lemma replay_skips_non_dict_records_witness :
  let history := [JNum 1;
                  JDict [("role", JStr "user"); ("content", JStr "a")];
                  JStr "x";
                  JDict [("role", JStr "assistant"); ("content", JStr "b")]] in
  let E := sample_env [] (answers (JList history)) Done in
  replay E 9 history (world0 [1])
  = (Ok tt,
     {| active_connections := [1];
        trace := [Sent 9 (full_msg (JStr "user") (JStr "a"));
                  Sent 9 (full_msg (JStr "assistant") (JStr "b"))] |})
  /\ received 9 (trace (snd (websocket_endpoint E 9 (world0 [1]))))
     = [full_msg (JStr "user") (JStr "a"); full_msg (JStr "assistant") (JStr "b")].
Proof.
  intros history E.
  destruct (replay_skips_non_dict_records E 9 history (world0 [1]))
    as (_ & _ & _ & _ & Hloop & Hend).
  assert (Hacc : accepts E 9) by (intros tr m; reflexivity).
  split.
  - rewrite (Hloop Hacc). reflexivity.
  - destruct (Hend Hacc {| status_code := 200; body := Json (JList history) |}
                (JList history) eq_refl eq_refl eq_refl eq_refl) as (_ & Hrecv).
    rewrite Hrecv. reflexivity.
Defined.

(** X13.  The session of a viewer whose socket accepts every frame and
    whose client sends text frames until it disconnects, whatever the
    worker answers to the history GET: the endpoint returns; the viewer is
    sent one full frame per dict record of the fetched history, in order,
    and none when the fetch or its parsing fails; no other socket receives
    anything, nothing is broadcast and the GET is the only request; the
    inbound frames are taken; and at the disconnect the socket is
    unregistered, so that for a socket that was not registered before the
    registry ends as it was. *)
Theorem viewer_session_with_accepting_socket
    (E : Environment) (ws : WebSocket) (w : World) :
  accepts E ws ->
  let sent := synced (http E (trace w) Get) in
  let new := (Http Get :: map (fun d => Sent ws (replayed d)) sent
              ++ map (Received ws) (inbound E ws))%list in
  websocket_endpoint E ws w
  = (Ok tt,
     {| active_connections := list_remove ws (active_connections w ++ [ws]);
        trace := (trace w ++ new)%list |})
  /\ received ws new = map replayed sent
  /\ (forall c, c <> ws -> received c new = [])
  /\ broadcasts new = []
  /\ requests new = [Get]
  /\ (~ In ws (active_connections w) ->
      active_connections (snd (websocket_endpoint E ws w))
      = active_connections w).
Proof.
  intros Hacc sent new.
  pose proof (websocket_endpoint_synced E ws w Hacc) as Hrun.
  fold sent in Hrun. fold new in Hrun.
  split; [exact Hrun|]. split; [|split; [|split; [|split]]].
  - unfold new. cbn [received].
    rewrite received_app, received_replayed, received_inbound, Nat.eqb_refl, app_nil_r.
    reflexivity.
  - intros c Hc. unfold new. cbn [received].
    rewrite received_app, received_replayed, received_inbound.
    apply not_eq_sym in Hc. apply Nat.eqb_neq in Hc. rewrite Hc. reflexivity.
  - unfold new. cbn [broadcasts].
    rewrite broadcasts_app, broadcasts_replayed, broadcasts_inbound. reflexivity.
  - unfold new. cbn [requests]. rewrite requests_app.
    rewrite <- (requests_calls (map _ sent)), <- (requests_calls (map _ (inbound E ws))).
    assert (H1 : forall ds, requests (calls (map (fun d => Sent ws (replayed d)) ds)) = [])
      by (induction ds as [|d ds IH]; simpl; [reflexivity | exact IH]).
    assert (H2 : forall fr, requests (calls (map (Received ws) fr)) = [])
      by (induction fr as [|f fr IH]; simpl; [reflexivity | exact IH]).
    rewrite H1, H2. reflexivity.
  - intros Hn. rewrite Hrun. cbn [snd active_connections].
    apply list_remove_last. exact Hn.
Qed.

Lemma viewer_session_with_accepting_socket_witness :
  let E := sample_env [1]
             (answers (JDict [("history",
                JList [JNum 1; JDict [("role", JStr "user"); ("content", JStr "a")]])]))
             Done in
  websocket_endpoint E 9 (world0 [1; 2])
  = (Ok tt,
     {| active_connections := [1; 2];
        trace := [Http Get; Sent 9 (full_msg (JStr "user") (JStr "a"))] |}).
Proof.
  intros E.
  rewrite (proj1 (viewer_session_with_accepting_socket E 9 (world0 [1; 2])
                    (fun tr m => eq_refl))).
  reflexivity.
Defined.

(** X14.  Unlike a broadcast, the replay loop stops at the first frame the
    socket refuses.  For a socket that has received nothing yet, takes
    [limit] frames and then refuses with [e]: the loop sends the first
    [limit] stored records; if there is a further record, one send of it
    fails, the loop raises [e] and the records after it are not tried;
    otherwise the loop returns. *)
Theorem replay_stops_at_first_refused_frame
    (E : Environment) (ws : WebSocket) (w : World)
    (ds : list dict) (limit : nat) (e : exn) :
  received ws (trace w) = [] ->
  (forall tr m, send_result E tr ws m
                = if Nat.ltb (List.length (received ws tr)) limit
                  then None else Some e) ->
  replay E ws (map JDict ds) w
  = (match nth_error ds limit with Some _ => Raise e | None => Ok tt end,
     grow w (map (fun d => Sent ws (replayed d)) (firstn limit ds)
             ++ match nth_error ds limit with
                | Some d => [SendFailed ws (replayed d)]
                | None => []
                end)).
Proof.
  intros Hfresh Horacle.
  apply (replay_until_refused E ws limit e Horacle ds limit w).
  rewrite Hfresh. reflexivity.
Qed.

Lemma replay_stops_at_first_refused_frame_witness :
  let E := {| send_result := fun tr ws m =>
                if Nat.ltb (List.length (received ws tr)) 1 then None
                else Some (Exn WebSocketDisconnect "");
              http := unreachable;
              generate_content_stream := fun _ => Done;
              valid_text := fun _ => true;
              inbound := fun _ => [] |} in
  replay E 9 [JDict [("role", JStr "user"); ("content", JStr "a")];
              JDict [("role", JStr "assistant"); ("content", JStr "b")];
              JDict [("role", JStr "user"); ("content", JStr "c")]]
    (world0 [1])
  = (Raise (Exn WebSocketDisconnect ""),
     {| active_connections := [1];
        trace := [Sent 9 (full_msg (JStr "user") (JStr "a"));
                  SendFailed 9 (full_msg (JStr "assistant") (JStr "b"))] |}).
Proof.
  intros E.
  exact (replay_stops_at_first_refused_frame E 9 (world0 [1])
           [[("role", JStr "user"); ("content", JStr "a")];
            [("role", JStr "assistant"); ("content", JStr "b")];
            [("role", JStr "user"); ("content", JStr "c")]]
           1 (Exn WebSocketDisconnect "") eq_refl (fun tr m => eq_refl)).
Defined.
